(** * Permission resolution, team consistency and owner-team provisioning
      of [repo/models.py], as a shallow embedding over an explicit database
      state. *)

From Stdlib Require Import ZArith Ascii.
From stdpp Require Import gmap strings list fin_maps fin_sets.

Local Open Scope Z_scope.

(** ** Exceptions and fallible computations *)

Inductive exn : Type :=
  | DoesNotExist      (* [Model.objects.get] found no row *)
  | AttributeError    (* attribute lookup on an object that lacks it *)
  | ValueError
  | TypeError
  | IntegrityError.   (* a unique or primary-key constraint refused a write *)

Inductive result (A : Type) : Type :=
  | Ok (a : A)
  | Raise (e : exn).
Arguments Ok {A} a.
Arguments Raise {A} e.

#[global] Instance result_ret : MRet result := λ A a, Ok a.
#[global] Instance result_bind : MBind result := λ A B k m,
  match m with
  | Ok a => k a
  | Raise e => Raise e
  end.

(** ** Rows and model instances *)

(** A model instance is a primary key together with the columns of its row. *)
Record Instance (F : Type) : Type := MkInstance { pk : Z; fields : F }.
Arguments MkInstance {F} pk fields.
Arguments pk {F} _.
Arguments fields {F} _.

Record NamespaceRow : Type := { name : string }.

Record RepoUserRow : Type := {
  email : string;
  password : string;
  is_staff : bool;
  is_active : bool;
  is_superuser : bool;
  date_joined : Z
}.

Record ProjectRow : Type := {
  project_name : string;
  namespace_id : Z;
  project_description : string
}.

Record PermissionRow : Type := {
  slug : string;
  permission_name : string;
  permission_description : string;
  applies_to_project : bool
}.

Record OrganizationTeamRow : Type := {
  ot_name : string;
  ot_is_owner_team : bool;
  organization_id : Z;
  is_all_projects : bool
}.

Record ProjectTeamRow : Type := {
  pt_name : string;
  pt_is_owner_team : bool;
  project_id : Z
}.

(** [RepoUser] and [Organization] are multi-table children of [Namespace]:
    the child row shares the primary key of its [Namespace] row. *)
Definition RepoUser : Type := Instance (NamespaceRow * RepoUserRow).
Definition Organization : Type := Instance NamespaceRow.
Definition Project : Type := Instance ProjectRow.
Definition OrganizationTeam : Type := Instance OrganizationTeamRow.
Definition ProjectTeam : Type := Instance ProjectTeamRow.

(** What [Namespace.objects.get_subclass] hands back. *)
Inductive Namespace : Type :=
  | NsRepoUser (u : RepoUser)
  | NsOrganization (o : Organization)
  | NsPlain (n : Instance NamespaceRow).

(** ** The database

    One table per concrete model, keyed by primary key; one link set per
    many-to-many field, holding pairs (owner pk, target pk). *)
Record Database : Type := {
  namespace_tbl : gmap Z NamespaceRow;
  repouser_tbl : gmap Z RepoUserRow;
  organization_tbl : gset Z;
  project_tbl : gmap Z ProjectRow;
  permission_tbl : gmap Z PermissionRow;
  organizationteam_tbl : gmap Z OrganizationTeamRow;
  organizationteam_users : gset (Z * Z);
  organizationteam_permissions : gset (Z * Z);
  organizationteam_projects : gset (Z * Z);
  projectteam_tbl : gmap Z ProjectTeamRow;
  projectteam_users : gset (Z * Z);
  projectteam_permissions : gset (Z * Z)
}.

(** ** Query sets *)

(** All rows of a table as instances. *)
Definition objects {F} (tbl : gmap Z F) : list (Instance F) :=
  (λ kv, MkInstance kv.1 kv.2) <$> map_to_list tbl.

(** Targets linked to [owner] through a many-to-many link set. *)
Definition linked (links : gset (Z * Z)) (owner : Z) : list Z :=
  snd <$> elements (filter (λ l, l.1 = owner) links).

(** A filter over a multi-valued relation joins the relation in: the query
    set gets one row per (instance, related value) pair. An inner join drops
    instances with nothing related; a left outer join keeps them once, with
    NULL ([None]) for the related value. *)
Definition inner_join {A B} (rel : A → list B) (qs : list A) : list (A * B) :=
  t ← qs; (λ b, (t, b)) <$> rel t.

Definition outer_rows {B} (bs : list B) : list (option B) :=
  match bs with
  | [] => [None]
  | _ => Some <$> bs
  end.

Definition left_outer_join {A B} (rel : A → list B) (qs : list A)
    : list (A * option B) :=
  t ← qs; (λ b, (t, b)) <$> outer_rows (rel t).

(** [WHERE cond], keeping the columns of the base model only. *)
Definition where_ {A B} (cond : A → B → bool) (rows : list (A * B)) : list A :=
  fst <$> filter (λ r, cond r.1 r.2 = true) rows.

(** [qs.count()] *)
Definition count {A} (qs : list A) : Z := Z.of_nat (length qs).

(** Python truthiness of an integer. *)
Definition truthy (n : Z) : bool := negb (n =? 0).

(** ** The lookups used in the filters *)

(** [users=user]: the joined user column equals the user's primary key. *)
Definition users_eq (user : RepoUser) {A} (_ : A) (uid : Z) : bool :=
  uid =? pk user.

(** [projects=project]. With a project this compares the joined project
    column with its primary key; with [None] Django turns the exact lookup
    into an IS NULL test on the joined column. *)
Definition projects_eq (project : option Project) (link : option Z) : bool :=
  match project, link with
  | Some p, Some pid => pid =? pk p
  | Some _, None => false
  | None, Some _ => false
  | None, None => true
  end.

(** [permissions__slug=perm_slug]: the permission joined through the link has
    the given slug; NULL (no link) does not match. *)
Definition slug_eq (perm_slug : string) (perm : option PermissionRow) : bool :=
  match perm with
  | Some p => bool_decide (slug p = perm_slug)
  | None => false
  end.

(** The permission link set and the permission table are both joined in with
    a left outer join: a row carries the permission reached through the link,
    or NULL. *)
Definition join_permissions {F : Type} (db : Database) (links : gset (Z * Z))
    (qs : list (Instance F)) : list (Instance F * option PermissionRow) :=
  prod_map id (λ l : option Z, pid ← l; permission_tbl db !! pid)
    <$> left_outer_join (λ t, linked links (pk t)) qs.

(** ** Permission resolution *)

(** [RepoUser.user_has_permission]: [user == self] compares primary keys. *)
Definition RepoUser_user_has_permission (self : RepoUser) (user : RepoUser)
    (perm_slug : string) (project : option Project) : bool :=
  pk user =? pk self.

(** [self.teams] of an organization: the reverse of
    [OrganizationTeam.organization]. *)
Definition Organization_teams (db : Database) (self : Organization)
    : list OrganizationTeam :=
  filter (λ t, organization_id (fields t) = pk self)
         (objects (organizationteam_tbl db)).

Definition Organization_teams_query (db : Database) (self : Organization)
    (user : RepoUser) (perm_slug : string) (project : option Project)
    : list OrganizationTeam :=
  let q1 := where_ (users_eq user)
              (inner_join (λ t, linked (organizationteam_users db) (pk t))
                          (Organization_teams db self)) in
  let q2 := where_ (λ t l, is_all_projects (fields t) || projects_eq project l)
              (left_outer_join
                 (λ t, linked (organizationteam_projects db) (pk t)) q1) in
  where_ (λ t p, ot_is_owner_team (fields t) || slug_eq perm_slug p)
    (join_permissions db (organizationteam_permissions db) q2).

Definition Organization_user_has_permission (db : Database)
    (self : Organization) (user : RepoUser) (perm_slug : string)
    (project : option Project) : bool :=
  if truthy (count (Organization_teams_query db self user perm_slug project))
  then true
  else false.

(** [Namespace.objects.get_subclass(id=...)]: the [Namespace] row must exist;
    the instance is the first child model that has a row for it, in the
    order the child models are declared, and the plain [Namespace] when
    there is none. *)
Definition get_subclass (db : Database) (id : Z) : result Namespace :=
  match namespace_tbl db !! id with
  | None => Raise DoesNotExist
  | Some ns =>
      match repouser_tbl db !! id with
      | Some u => Ok (NsRepoUser (MkInstance id (ns, u)))
      | None =>
          if bool_decide (id ∈ organization_tbl db)
          then Ok (NsOrganization (MkInstance id ns))
          else Ok (NsPlain (MkInstance id ns))
      end
  end.

(** Method dispatch on the resolved instance; the plain [Namespace] model
    has no [user_has_permission]. *)
Definition Namespace_user_has_permission (db : Database) (ns : Namespace)
    (user : RepoUser) (perm_slug : string) (project : option Project)
    : result bool :=
  match ns with
  | NsRepoUser u => Ok (RepoUser_user_has_permission u user perm_slug project)
  | NsOrganization o =>
      Ok (Organization_user_has_permission db o user perm_slug project)
  | NsPlain _ => Raise AttributeError
  end.

(** [self.teams] of a project: the reverse of [ProjectTeam.project]. *)
Definition Project_teams (db : Database) (self : Project) : list ProjectTeam :=
  filter (λ t, project_id (fields t) = pk self) (objects (projectteam_tbl db)).

Definition Project_teams_query (db : Database) (self : Project)
    (user : RepoUser) (perm_slug : string) : list ProjectTeam :=
  let q1 := where_ (users_eq user)
              (inner_join (λ t, linked (projectteam_users db) (pk t))
                          (Project_teams db self)) in
  where_ (λ t p, pt_is_owner_team (fields t) || slug_eq perm_slug p)
    (join_permissions db (projectteam_permissions db) q1).

Definition Project_user_has_permission (db : Database) (self : Project)
    (user : RepoUser) (perm_slug : string) : result bool :=
  if truthy (count (Project_teams_query db self user perm_slug))
  then Ok true
  else
    ns ← get_subclass db (namespace_id (fields self));
    Namespace_user_has_permission db ns user perm_slug (Some self).

(** ** Writes *)

Definition set_projectteam_tbl (tbl : gmap Z ProjectTeamRow) (db : Database)
    : Database :=
  {| namespace_tbl := namespace_tbl db;
     repouser_tbl := repouser_tbl db;
     organization_tbl := organization_tbl db;
     project_tbl := project_tbl db;
     permission_tbl := permission_tbl db;
     organizationteam_tbl := organizationteam_tbl db;
     organizationteam_users := organizationteam_users db;
     organizationteam_permissions := organizationteam_permissions db;
     organizationteam_projects := organizationteam_projects db;
     projectteam_tbl := tbl;
     projectteam_users := projectteam_users db;
     projectteam_permissions := projectteam_permissions db |}.

Definition set_projectteam_users (links : gset (Z * Z)) (db : Database)
    : Database :=
  {| namespace_tbl := namespace_tbl db;
     repouser_tbl := repouser_tbl db;
     organization_tbl := organization_tbl db;
     project_tbl := project_tbl db;
     permission_tbl := permission_tbl db;
     organizationteam_tbl := organizationteam_tbl db;
     organizationteam_users := organizationteam_users db;
     organizationteam_permissions := organizationteam_permissions db;
     organizationteam_projects := organizationteam_projects db;
     projectteam_tbl := projectteam_tbl db;
     projectteam_users := links;
     projectteam_permissions := projectteam_permissions db |}.

Definition set_organizationteam_tbl (tbl : gmap Z OrganizationTeamRow)
    (db : Database) : Database :=
  {| namespace_tbl := namespace_tbl db;
     repouser_tbl := repouser_tbl db;
     organization_tbl := organization_tbl db;
     project_tbl := project_tbl db;
     permission_tbl := permission_tbl db;
     organizationteam_tbl := tbl;
     organizationteam_users := organizationteam_users db;
     organizationteam_permissions := organizationteam_permissions db;
     organizationteam_projects := organizationteam_projects db;
     projectteam_tbl := projectteam_tbl db;
     projectteam_users := projectteam_users db;
     projectteam_permissions := projectteam_permissions db |}.

Definition set_organizationteam_projects (links : gset (Z * Z))
    (db : Database) : Database :=
  {| namespace_tbl := namespace_tbl db;
     repouser_tbl := repouser_tbl db;
     organization_tbl := organization_tbl db;
     project_tbl := project_tbl db;
     permission_tbl := permission_tbl db;
     organizationteam_tbl := organizationteam_tbl db;
     organizationteam_users := organizationteam_users db;
     organizationteam_permissions := organizationteam_permissions db;
     organizationteam_projects := links;
     projectteam_tbl := projectteam_tbl db;
     projectteam_users := projectteam_users db;
     projectteam_permissions := projectteam_permissions db |}.

Definition set_user_tbls (ns : gmap Z NamespaceRow) (us : gmap Z RepoUserRow)
    (db : Database) : Database :=
  {| namespace_tbl := ns;
     repouser_tbl := us;
     organization_tbl := organization_tbl db;
     project_tbl := project_tbl db;
     permission_tbl := permission_tbl db;
     organizationteam_tbl := organizationteam_tbl db;
     organizationteam_users := organizationteam_users db;
     organizationteam_permissions := organizationteam_permissions db;
     organizationteam_projects := organizationteam_projects db;
     projectteam_tbl := projectteam_tbl db;
     projectteam_users := projectteam_users db;
     projectteam_permissions := projectteam_permissions db |}.

(** [Model.objects.create(...)]: the row is inserted under a primary key the
    table does not hold yet. *)
Definition objects_create {F : Type} (tbl : gmap Z F) (row : F)
    : Instance F * gmap Z F :=
  let id := fresh (dom tbl) in
  (MkInstance id row, <[id := row]> tbl).

(** [instance.save()] of an instance that has a primary key: its row is
    written under that key. *)
Definition save {F : Type} (self : Instance F) (tbl : gmap Z F) : gmap Z F :=
  <[pk self := fields self]> tbl.

(** Assignment to a many-to-many field: the value is read, the owner's links
    are cleared, and one link per value is added. *)
Definition m2m_clear (links : gset (Z * Z)) (owner : Z) : gset (Z * Z) :=
  filter (λ l, l.1 ≠ owner) links.

Definition m2m_add (links : gset (Z * Z)) (owner : Z) (targets : list Z)
    : gset (Z * Z) :=
  links ∪ list_to_set ((λ x, (owner, x)) <$> targets).

Definition m2m_assign (links : gset (Z * Z)) (owner : Z) (targets : list Z)
    : gset (Z * Z) :=
  m2m_add (m2m_clear links owner) owner targets.

(** ** Consistency of teams *)

(** [Team.check_consistent] and [Team.make_consistent], the defaults of the
    abstract base. *)
Definition Team_check_consistent {T : Type} (db : Database) (self : T) : bool :=
  true.

Definition Team_make_consistent {T : Type} (self : T) (db : Database)
    : Database :=
  db.

(** [self.projects] of an organization team: the projects reached through
    the link set (the project table is joined in, so only existing rows
    show). *)
Definition OrganizationTeam_projects (db : Database) (self : OrganizationTeam)
    : list Project :=
  omap (λ pid, MkInstance pid <$> project_tbl db !! pid)
       (linked (organizationteam_projects db) (pk self)).

(** [namespace=self.organization] compares the project's [namespace_id] with
    the primary key of the team's organization, which is the team's
    [organization_id]. *)
Definition OrganizationTeam_make_consistent (self : OrganizationTeam)
    (db : Database) : Database :=
  let kept := filter (λ p, namespace_id (fields p) = organization_id (fields self))
                     (OrganizationTeam_projects db self) in
  let db1 := set_organizationteam_projects
               (m2m_assign (organizationteam_projects db) (pk self) (pk <$> kept))
               db in
  set_organizationteam_tbl (save self (organizationteam_tbl db1)) db1.

Definition OrganizationTeam_check_consistent (db : Database)
    (self : OrganizationTeam) : bool :=
  count (filter (λ p, namespace_id (fields p) ≠ organization_id (fields self))
                (OrganizationTeam_projects db self)) =? 0.

(** The two concrete team models: [OrganizationTeam] overrides both methods,
    [ProjectTeam] inherits them. *)
Class Team (T : Type) : Type := {
  check_consistent : Database → T → bool;
  make_consistent : T → Database → Database
}.

#[global] Instance OrganizationTeam_Team : Team OrganizationTeam := {
  check_consistent := OrganizationTeam_check_consistent;
  make_consistent := OrganizationTeam_make_consistent
}.

#[global] Instance ProjectTeam_Team : Team ProjectTeam := {
  check_consistent := Team_check_consistent;
  make_consistent := Team_make_consistent
}.

(** ** Owner-team provisioning (the [post_save] receivers)

    [instance] is [None] or a model instance (which is truthy). *)
Definition create_project_owner_team (instance : option Project)
    (created : bool) (db : Database) : result Database :=
  match instance with
  | Some inst =>
      if created then
        owning_namespace ← get_subclass db (namespace_id (fields inst));
        match owning_namespace with
        | NsRepoUser u =>
            let '(team, tbl) :=
              objects_create (projectteam_tbl db)
                {| project_id := pk inst;
                   pt_is_owner_team := true;
                   pt_name := "Owners" |} in
            let db1 := set_projectteam_tbl tbl db in
            let db2 := set_projectteam_users
                         (m2m_assign (projectteam_users db1) (pk team) [pk u])
                         db1 in
            Ok (set_projectteam_tbl (save team (projectteam_tbl db2)) db2)
        | _ => Ok db
        end
      else Ok db
  | None => Ok db
  end.

Definition create_organization_owner_team (instance : option Organization)
    (created : bool) (db : Database) : Database :=
  match instance with
  | Some inst =>
      if created then
        let '(_, tbl) :=
          objects_create (organizationteam_tbl db)
            {| ot_name := "Owners";
               organization_id := pk inst;
               is_all_projects := true;
               ot_is_owner_team := true |} in
        set_organizationteam_tbl tbl db
      else db
  | None => db
  end.

(** ** Creating users *)

Section RepoUserManager.

(** [BaseUserManager.normalize_email], [AbstractBaseUser.set_password]'s
    hashing: provided by the authentication framework. *)
Variable normalize_email : string → string.
Variable make_password : string → string.

(** [user.set_password(raw)] *)
Definition set_password (user : RepoUserRow) (raw : string) : RepoUserRow :=
  {| email := email user;
     password := make_password raw;
     is_staff := is_staff user;
     is_active := is_active user;
     is_superuser := is_superuser user;
     date_joined := date_joined user |}.

(** Keyword arguments [_create_user] passes to the model itself; a key of
    [extra_fields] that repeats one is a [TypeError] at the call. *)
Definition explicit_keywords : list string :=
  ["name"; "email"; "is_staff"; "is_active"; "is_superuser"; "date_joined"].

(** The other keywords the model takes: its remaining columns, and the [pk]
    property. [namespace_ptr], the parent link given as an object, is dealt
    with apart: a value that is no [Namespace] instance is a [ValueError]. *)
Definition model_keywords : list string :=
  ["id"; "password"; "last_login"; "namespace_ptr_id"; "pk"].

(** Whether the [last_login] column of the authentication framework takes
    NULL (it does from Django 1.8 on). *)
Variable last_login_null : bool.

(** The primary key [save()] writes under, when the keywords carry one: the
    [id] of the [Namespace] row when given; else the parent link, which [pk]
    (set after the columns) overrides; else none, and the row is inserted
    under a new key. *)
Definition given_key (extra_fields : gmap string (option Z)) : option Z :=
  match mjoin (extra_fields !! "id") with
  | Some k => Some k
  | None =>
      match extra_fields !! "pk" with
      | Some v => v
      | None => mjoin (extra_fields !! "namespace_ptr_id")
      end
  end.

Definition save_key (db : Database) (extra_fields : gmap string (option Z))
    : Z :=
  default (fresh (dom (namespace_tbl db))) (given_key extra_fields).

(** [extra_fields] maps keyword names to values; a value is [None] or an
    integer (a primary key, or a point in time as [now] is). [now] is
    [timezone.now()]. [user.save()] writes the [Namespace] row and then the
    [RepoUser] row under one primary key, each by an UPDATE of the row with
    that key or, when there is none, an INSERT; [name] is unique over all
    namespaces. A failed [save()] leaves the database as it was. *)
Definition _create_user (db : Database) (username email password : string)
    (is_staff is_superuser : bool) (extra_fields : gmap string (option Z))
    (now : Z) : result (RepoUser * Database) :=
  if bool_decide (username = "") then Raise ValueError
  else
    let email := normalize_email email in
    if bool_decide (Exists (λ kw, is_Some (extra_fields !! kw))
                           explicit_keywords)
    then Raise TypeError
    else if bool_decide (is_Some (extra_fields !! "namespace_ptr"))
    then Raise ValueError
    else if bool_decide (map_Exists (λ kw _, kw ∉ model_keywords)
                                    extra_fields)
    then Raise TypeError
    else
      let ns := {| name := username |} in
      let user := {| email := email;
                     password := "";
                     is_staff := is_staff;
                     is_active := true;
                     is_superuser := true;
                     date_joined := now |} in
      let user := set_password user password in
      let id := save_key db extra_fields in
      if bool_decide (map_Exists (λ j row, j ≠ id ∧ name row = username)
                                 (namespace_tbl db))
      then Raise IntegrityError
      else if negb last_login_null
              && bool_decide (extra_fields !! "last_login" = Some None)
      then Raise IntegrityError
      else
        Ok (MkInstance id (ns, user),
            set_user_tbls (<[id := ns]> (namespace_tbl db))
                          (<[id := user]> (repouser_tbl db)) db).

(** The public entry points, inherited from [UserManager]. *)
Definition create_user (db : Database) (username email password : string)
    (extra_fields : gmap string (option Z)) (now : Z)
    : result (RepoUser * Database) :=
  _create_user db username email password false false extra_fields now.

Definition create_superuser (db : Database)
    (username email password : string)
    (extra_fields : gmap string (option Z)) (now : Z)
    : result (RepoUser * Database) :=
  _create_user db username email password true true extra_fields now.

End RepoUserManager.

(** An extra field repeats a keyword [_create_user] passes itself. *)
Definition repeats_keyword (extra_fields : gmap string (option Z)) : Prop :=
  Exists (λ kw, is_Some (extra_fields !! kw)) explicit_keywords.

(** An extra field names nothing the model takes. *)
Definition unknown_keyword (extra_fields : gmap string (option Z)) : Prop :=
  map_Exists (λ kw _, kw ∉ model_keywords) extra_fields.

(** Another namespace row than the one at [id] carries the name. *)
Definition name_taken (db : Database) (id : Z) (username : string) : Prop :=
  map_Exists (λ j row, j ≠ id ∧ name row = username) (namespace_tbl db).

(** The user row [_create_user] builds. *)
Definition new_user_row (normalize_email make_password : string → string)
    (email password : string) (is_staff : bool) (now : Z) : RepoUserRow :=
  {| email := normalize_email email;
     password := make_password password;
     is_staff := is_staff;
     is_active := true;
     is_superuser := true;
     date_joined := now |}.

Definition set_permission_tbl (tbl : gmap Z PermissionRow) (db : Database)
    : Database :=
  {| namespace_tbl := namespace_tbl db;
     repouser_tbl := repouser_tbl db;
     organization_tbl := organization_tbl db;
     project_tbl := project_tbl db;
     permission_tbl := tbl;
     organizationteam_tbl := organizationteam_tbl db;
     organizationteam_users := organizationteam_users db;
     organizationteam_permissions := organizationteam_permissions db;
     organizationteam_projects := organizationteam_projects db;
     projectteam_tbl := projectteam_tbl db;
     projectteam_users := projectteam_users db;
     projectteam_permissions := projectteam_permissions db |}.

(** No two namespace rows carry the same name ([unique=True]). *)
Definition names_unique (db : Database) : Prop :=
  ∀ i j ri rj,
    namespace_tbl db !! i = Some ri → namespace_tbl db !! j = Some rj →
    name ri = name rj → i = j.

(** A permission row with its [applies_to_project] flag cleared. *)
Definition not_for_projects (r : PermissionRow) : PermissionRow :=
  {| slug := slug r;
     permission_name := permission_name r;
     permission_description := permission_description r;
     applies_to_project := false |}.

(** A user row with every status flag cleared. *)
Definition no_flags (r : RepoUserRow) : RepoUserRow :=
  {| email := email r;
     password := password r;
     is_staff := false;
     is_active := false;
     is_superuser := false;
     date_joined := date_joined r |}.

(** The row of the team the project receiver creates. *)
Definition project_owners_row (inst : Project) : ProjectTeamRow :=
  {| pt_name := "Owners"; pt_is_owner_team := true; project_id := pk inst |}.

(** ** Name patterns

    The patterns are written with the regular-expression constructors they
    use. Characters are bytes; [\w] is then a letter, a digit or the
    underscore. *)
Inductive regex : Type :=
  | Class (p : ascii → bool)   (* one character of a class *)
  | Seq (r1 r2 : regex)
  | Star (r : regex)
  | Plus (r : regex)
  | Opt (r : regex)
  | Bol                        (* [^] *)
  | Eol.                       (* [$] *)

Definition between (lo hi c : ascii) : bool :=
  (nat_of_ascii lo <=? nat_of_ascii c)%nat
  && (nat_of_ascii c <=? nat_of_ascii hi)%nat.

Definition word_char (c : ascii) : bool :=
  between "a" "z" c || between "A" "Z" c || between "0" "9" c
  || Ascii.eqb c "_".

(** [[\w.@+-]] *)
Definition extended_char (c : ascii) : bool :=
  word_char c || Ascii.eqb c "." || Ascii.eqb c "@" || Ascii.eqb c "+"
  || Ascii.eqb c "-".

(** [[\w.@+ -]] *)
Definition trim_char (c : ascii) : bool :=
  word_char c || Ascii.eqb c "." || Ascii.eqb c "@" || Ascii.eqb c "+"
  || Ascii.eqb c " " || Ascii.eqb c "-".

Definition newline : ascii := "010".

Definition EXTENDED_CHAR_REGEX : regex := Plus (Class extended_char).

Definition EXTENDED_NAME_REGEX : regex :=
  Seq Bol (Seq EXTENDED_CHAR_REGEX Eol).

Definition TRIM_NAME_REGEX : regex :=
  Seq Bol
    (Seq EXTENDED_CHAR_REGEX
       (Seq (Opt (Seq (Star (Class trim_char)) EXTENDED_CHAR_REGEX)) Eol)).

(** Repetition of [step] from position [pos]: stop here, or take one more
    round that consumes something (a round that consumes nothing is never
    repeated). *)
Fixpoint star (fuel : nat)
    (step : nat → list ascii → (nat → list ascii → bool) → bool)
    (pos : nat) (s : list ascii) (k : nat → list ascii → bool) : bool :=
  k pos s
  || match fuel with
     | O => false
     | S fuel' =>
         step pos s
           (λ pos' s', (length s' <? length s)%nat && star fuel' step pos' s' k)
     end.

(** Backtracking match of [r] at position [pos], where [s] is what is left
    of the subject; [k] matches the rest of the pattern. [$] matches at the
    end and just before a newline that ends the subject. *)
Fixpoint run (r : regex) (pos : nat) (s : list ascii)
    (k : nat → list ascii → bool) : bool :=
  match r with
  | Class p =>
      match s with
      | c :: s' => p c && k (S pos) s'
      | [] => false
      end
  | Seq r1 r2 => run r1 pos s (λ pos' s', run r2 pos' s' k)
  | Star r => star (length s) (run r) pos s k
  | Plus r => run r pos s (λ pos' s', star (length s') (run r) pos' s' k)
  | Opt r => run r pos s k || k pos s
  | Bol => (pos =? 0)%nat && k pos s
  | Eol =>
      match s with
      | [] => k pos s
      | [c] => Ascii.eqb c newline && k pos s
      | _ => false
      end
  end.

(** [regex.search(value)]: a match starting at some position. *)
Definition search (r : regex) (value : list ascii) : bool :=
  existsb (λ i, run r i (drop i value) (λ _ _, true))
          (seq 0 (S (length value))).

(** [RegexValidator(regex, message, code)(value)]: passes, or raises
    [ValidationError(message, code=code)]. *)
Inductive validation : Type :=
  | Passes
  | ValidationError (message code : string).

Definition RegexValidator (r : regex) (message code : string)
    (value : string) : validation :=
  if search r (String.list_ascii_of_string value) then Passes
  else ValidationError message code.

(** The validators of the four [name] fields. *)
Definition Namespace_name_validator : string → validation :=
  RegexValidator EXTENDED_NAME_REGEX "Enter a namespace organization name."
    "invalid".
Definition Project_name_validator : string → validation :=
  RegexValidator EXTENDED_NAME_REGEX "Enter a valid project name." "invalid".
Definition Version_name_validator : string → validation :=
  RegexValidator TRIM_NAME_REGEX "Enter a valid version name." "invalid".
Definition File_name_validator : string → validation :=
  RegexValidator TRIM_NAME_REGEX "Enter a valid file name." "invalid".

(** ** The rules in the specification's words *)

(** The user is a member of the team. *)
Definition member (links : gset (Z * Z)) (team : Z) (user : RepoUser) : Prop :=
  (team, pk user) ∈ links.

(** The team holds a permission whose slug is the requested one. *)
Definition holds_permission (db : Database) (links : gset (Z * Z)) (team : Z)
    (perm_slug : string) : Prop :=
  ∃ pid p, (team, pid) ∈ links ∧ permission_tbl db !! pid = Some p
           ∧ slug p = perm_slug.

(** The slug has a record in the permission catalog. *)
Definition in_catalog (db : Database) (perm_slug : string) : Prop :=
  ∃ pid p, permission_tbl db !! pid = Some p ∧ slug p = perm_slug.

(** Some team scoped to the project has the user as a member and is an
    owner team or holds the permission. *)
Definition project_team_grants (db : Database) (project : Project)
    (user : RepoUser) (perm_slug : string) : Prop :=
  ∃ t : ProjectTeam,
    projectteam_tbl db !! pk t = Some (fields t)
    ∧ project_id (fields t) = pk project
    ∧ member (projectteam_users db) (pk t) user
    ∧ (pt_is_owner_team (fields t) = true
       ∨ holds_permission db (projectteam_permissions db) (pk t) perm_slug).

(** The team's explicit project set contains the given project; an absent
    project is in no set. *)
Definition project_set_contains (links : gset (Z * Z)) (team : Z)
    (project : option Project) : Prop :=
  match project with
  | Some p => (team, pk p) ∈ links
  | None => False
  end.

(** What the [projects=project] lookup tests: the given project is in the
    team's project set, or, with no project given, that set is empty. *)
Definition project_set_matches (links : gset (Z * Z)) (team : Z)
    (project : option Project) : Prop :=
  match project with
  | Some p => (team, pk p) ∈ links
  | None => ∀ pid, (team, pid) ∉ links
  end.

(** One team under the organization satisfies the three conjuncts at once,
    for a given reading [scope] of the project conjunct. *)
Definition organization_team_grants
    (scope : gset (Z * Z) → Z → option Project → Prop) (db : Database)
    (org : Organization) (user : RepoUser) (perm_slug : string)
    (project : option Project) : Prop :=
  ∃ t : OrganizationTeam,
    organizationteam_tbl db !! pk t = Some (fields t)
    ∧ organization_id (fields t) = pk org
    ∧ member (organizationteam_users db) (pk t) user
    ∧ (is_all_projects (fields t) = true
       ∨ scope (organizationteam_projects db) (pk t) project)
    ∧ (ot_is_owner_team (fields t) = true
       ∨ holds_permission db (organizationteam_permissions db) (pk t)
           perm_slug).

(** The namespace id resolves to one of the two concrete variants. *)
Definition resolves_to_variant (db : Database) (id : Z) : Prop :=
  (∃ u, get_subclass db id = Ok (NsRepoUser u))
  ∨ (∃ o, get_subclass db id = Ok (NsOrganization o)).

(** Every link of a many-to-many field starts at an existing row. *)
Definition links_start_in {F : Type} (tbl : gmap Z F) (links : gset (Z * Z))
    : Prop :=
  set_Forall (λ l, l.1 ∈ dom tbl) links.

(** The subject is [w], or [w] followed by one final newline. *)
Definition up_to_final_newline (w s : list ascii) : Prop :=
  s = w ∨ s = w ++ [newline].

(** Not empty, and made of [[\w.@+-]] characters only. *)
Definition extended_name (w : list ascii) : Prop :=
  w ≠ [] ∧ Forall (λ c, extended_char c = true) w.

(** Made of [[\w.@+ -]] characters, the first and the last of which are
    [[\w.@+-]] characters. *)
Definition trimmed_name (w : list ascii) : Prop :=
  Forall (λ c, trim_char c = true) w
  ∧ (∃ c, head w = Some c ∧ extended_char c = true)
  ∧ (∃ c, last w = Some c ∧ extended_char c = true).

(** ** A small database

    Users alice (1) and bob (3), organization acme (2), and a namespace row
    (4) that belongs to neither child model. acme owns widgets (7), alice
    owns notes (8); project 9 points at a namespace that has no row, project
    10 at the plain namespace. *)
Definition a_user_row : RepoUserRow :=
  {| email := "user@example.org"; password := ""; is_staff := false;
     is_active := true; is_superuser := true; date_joined := 0 |}.

Definition alice : RepoUser := MkInstance 1 ({| name := "alice" |}, a_user_row).
Definition bob : RepoUser := MkInstance 3 ({| name := "bob" |}, a_user_row).
Definition acme : Organization := MkInstance 2 {| name := "acme" |}.

Definition widgets : Project :=
  MkInstance 7 {| project_name := "widgets"; namespace_id := 2;
                  project_description := "" |}.
Definition notes : Project :=
  MkInstance 8 {| project_name := "notes"; namespace_id := 1;
                  project_description := "" |}.
Definition orphan : Project :=
  MkInstance 9 {| project_name := "orphan"; namespace_id := 99;
                  project_description := "" |}.
Definition limbo : Project :=
  MkInstance 10 {| project_name := "limbo"; namespace_id := 4;
                   project_description := "" |}.

Definition acme_owners : OrganizationTeam :=
  MkInstance 3 {| ot_name := "Owners"; ot_is_owner_team := true;
                  organization_id := 2; is_all_projects := true |}.
Definition acme_staff : OrganizationTeam :=
  MkInstance 5 {| ot_name := "Staff"; ot_is_owner_team := false;
                  organization_id := 2; is_all_projects := false |}.
Definition acme_mixed : OrganizationTeam :=
  MkInstance 6 {| ot_name := "Mixed"; ot_is_owner_team := false;
                  organization_id := 2; is_all_projects := false |}.

Definition notes_owners : ProjectTeam :=
  MkInstance 11 {| pt_name := "Owners"; pt_is_owner_team := true;
                   project_id := 8 |}.
Definition orphan_owners : ProjectTeam :=
  MkInstance 12 {| pt_name := "Owners"; pt_is_owner_team := true;
                   project_id := 9 |}.

Definition example_db : Database :=
  {| namespace_tbl :=
       {[ 1 := {| name := "alice" |}; 2 := {| name := "acme" |};
          3 := {| name := "bob" |}; 4 := {| name := "ghost" |} ]};
     repouser_tbl := {[ 1 := a_user_row; 3 := a_user_row ]};
     organization_tbl := {[ 2 ]};
     project_tbl :=
       {[ 7 := fields widgets; 8 := fields notes; 9 := fields orphan;
          10 := fields limbo ]};
     permission_tbl :=
       {[ 1 := {| slug := "deploy"; permission_name := "Deploy";
                  permission_description := "May deploy";
                  applies_to_project := true |} ]};
     organizationteam_tbl :=
       {[ 3 := fields acme_owners; 5 := fields acme_staff;
          6 := fields acme_mixed ]};
     organizationteam_users := {[ (3, 1); (5, 3) ]};
     organizationteam_permissions := {[ (5, 1) ]};
     organizationteam_projects := {[ (6, 7); (6, 8) ]};
     projectteam_tbl :=
       {[ 11 := fields notes_owners; 12 := fields orphan_owners ]};
     projectteam_users := {[ (11, 1); (12, 3) ]};
     projectteam_permissions := ∅ |}.

(** The database above with the staff team of acme linked to notes, which
    is alice's, and to nothing else. *)
Definition staff_linked_db : Database :=
  set_organizationteam_projects {[ (5, 8) ]} example_db.

(** carol, as [create_user] adds her to the database above at time 5, with
    an e-mail normaliser and a password hasher that change nothing. *)
Definition carol : RepoUser :=
  MkInstance 5
    ({| name := "carol" |},
     {| email := "carol@example.org"; password := "secret";
        is_staff := false; is_active := true; is_superuser := true;
        date_joined := 5 |}).

Definition carol_db : Database :=
  set_user_tbls (<[5 := (fields carol).1]> (namespace_tbl example_db))
                (<[5 := (fields carol).2]> (repouser_tbl example_db))
                example_db.

(** ** Basic facts about query sets *)

Section Queries.

Context {A B : Type}.
Implicit Types (qs : list A) (rel : A → list B).

Lemma truthy_count qs : truthy (count qs) = true ↔ ∃ x, x ∈ qs.
Proof.
  unfold truthy, count. destruct qs as [|x qs]; simpl.
  - split; [done | intros [x Hx]; by apply elem_of_nil in Hx].
  - split; [intros _; exists x; left | done].
Qed.

Lemma elem_of_where_ (cond : A → B → bool) (rows : list (A * B)) t :
  t ∈ where_ cond rows ↔ ∃ b, (t, b) ∈ rows ∧ cond t b = true.
Proof.
  unfold where_. rewrite list_elem_of_fmap. split.
  - intros [[t' b] [-> Hin]]. apply list_elem_of_filter in Hin as [Hc Hin].
    by exists b.
  - intros (b & Hin & Hc). exists (t, b). split; [done|].
    by apply list_elem_of_filter.
Qed.

Lemma elem_of_inner_join rel qs t b :
  (t, b) ∈ inner_join rel qs ↔ t ∈ qs ∧ b ∈ rel t.
Proof.
  unfold inner_join. rewrite list_elem_of_bind. split.
  - intros (t' & Hin & Ht'). apply list_elem_of_fmap in Hin as (b' & Heq & Hb').
    by simplify_eq.
  - intros [Ht Hb]. exists t. split; [|done].
    apply list_elem_of_fmap. by exists b.
Qed.

Lemma elem_of_outer_rows (bs : list B) o :
  o ∈ outer_rows bs ↔ (bs = [] ∧ o = None) ∨ (∃ b, o = Some b ∧ b ∈ bs).
Proof.
  unfold outer_rows. destruct bs as [|b0 bs].
  - rewrite list_elem_of_singleton. split.
    + intros ->. by left.
    + intros [[_ ->]|(b & _ & Hb)]; [done|]. by apply elem_of_nil in Hb.
  - rewrite list_elem_of_fmap. split.
    + intros (b & -> & Hb). right. by exists b.
    + intros [[? _]|(b & -> & Hb)]; [done|]. by exists b.
Qed.

Lemma outer_rows_inhabited (bs : list B) : ∃ o, o ∈ outer_rows bs.
Proof.
  destruct bs as [|b bs].
  - exists None. apply elem_of_outer_rows. by left.
  - exists (Some b). apply elem_of_outer_rows. right. exists b.
    split; [done | left].
Qed.

Lemma elem_of_left_outer_join rel qs t o :
  (t, o) ∈ left_outer_join rel qs ↔ t ∈ qs ∧ o ∈ outer_rows (rel t).
Proof.
  unfold left_outer_join. rewrite list_elem_of_bind. split.
  - intros (t' & Hin & Ht'). apply list_elem_of_fmap in Hin as (b' & Heq & Hb').
    by simplify_eq.
  - intros [Ht Hb]. exists t. split; [|done].
    apply list_elem_of_fmap. by exists o.
Qed.

End Queries.

Lemma elem_of_objects {F : Type} (tbl : gmap Z F) (t : Instance F) :
  t ∈ objects tbl ↔ tbl !! pk t = Some (fields t).
Proof.
  unfold objects. rewrite list_elem_of_fmap. split.
  - intros ([k v] & -> & Hin). by apply elem_of_map_to_list in Hin.
  - intros Hl. exists (pk t, fields t). split; [by destruct t|].
    by apply elem_of_map_to_list.
Qed.

Lemma elem_of_linked (links : gset (Z * Z)) (owner x : Z) :
  x ∈ linked links owner ↔ (owner, x) ∈ links.
Proof.
  unfold linked. rewrite list_elem_of_fmap. split.
  - intros ([o y] & -> & Hin).
    apply elem_of_elements, elem_of_filter in Hin as [Ho Hin].
    simpl in Ho. by subst.
  - intros Hin. exists (owner, x). split; [done|].
    apply elem_of_elements, elem_of_filter. by split.
Qed.

Lemma linked_nil (links : gset (Z * Z)) (owner : Z) :
  linked links owner = [] ↔ ∀ x, (owner, x) ∉ links.
Proof.
  split.
  - intros Hnil x Hx. apply elem_of_linked in Hx. rewrite Hnil in Hx.
    by apply elem_of_nil in Hx.
  - intros Hno. apply elem_of_nil_inv. intros x Hx.
    apply elem_of_linked in Hx. by apply (Hno x).
Qed.

(** ** The three filters of the permission queries *)

Section Filters.

Context {F : Type}.
Implicit Types (qs : list (Instance F)) (t : Instance F).

(** [.filter(users=user)] keeps the teams the user is a member of. *)
Lemma filter_users (links : gset (Z * Z)) qs user t :
  t ∈ where_ (users_eq user) (inner_join (λ t, linked links (pk t)) qs)
  ↔ t ∈ qs ∧ member links (pk t) user.
Proof.
  rewrite elem_of_where_. unfold users_eq, member. split.
  - intros (uid & Hin & Heq). apply elem_of_inner_join in Hin as [Ht Hu].
    apply Z.eqb_eq in Heq. subst uid. by apply elem_of_linked in Hu.
  - intros [Ht Hm]. exists (pk user). split; [|by apply Z.eqb_eq].
    apply elem_of_inner_join. split; [done|]. by apply elem_of_linked.
Qed.

(** [.filter(Q(<flag>=True) | Q(projects=project))] *)
Lemma filter_projects (links : gset (Z * Z)) (flag : F → bool) qs project t :
  t ∈ where_ (λ t l, flag (fields t) || projects_eq project l)
        (left_outer_join (λ t, linked links (pk t)) qs)
  ↔ t ∈ qs ∧ (flag (fields t) = true
              ∨ project_set_matches links (pk t) project).
Proof.
  rewrite elem_of_where_. split.
  - intros (l & Hin & Hc). apply elem_of_left_outer_join in Hin as [Ht Hl].
    split; [done|]. apply orb_true_iff in Hc as [Hc|Hc]; [by left|right].
    apply elem_of_outer_rows in Hl as [[Hnil ->]|(pid & -> & Hpid)].
    + destruct project as [p|]; [done|]. simpl. by apply linked_nil.
    + destruct project as [p|]; [|done]. simpl in *.
      apply Z.eqb_eq in Hc. subst pid. by apply elem_of_linked in Hpid.
  - intros [Ht [Hf|Hm]].
    + destruct (outer_rows_inhabited (linked links (pk t))) as [l Hl].
      exists l. split; [by apply elem_of_left_outer_join|].
      by rewrite Hf.
    + destruct project as [p|]; simpl in Hm.
      * exists (Some (pk p)). split.
        -- apply elem_of_left_outer_join. split; [done|].
           apply elem_of_outer_rows. right. exists (pk p).
           split; [done|]. by apply elem_of_linked.
        -- apply orb_true_iff. right. simpl. by apply Z.eqb_eq.
      * exists None. split.
        -- apply elem_of_left_outer_join. split; [done|].
           apply elem_of_outer_rows. left. split; [|done].
           by apply linked_nil.
        -- apply orb_true_iff. by right.
Qed.

Lemma elem_of_join_permissions (db : Database) (links : gset (Z * Z)) qs t o :
  (t, o) ∈ join_permissions db links qs
  ↔ t ∈ qs ∧ ∃ l, l ∈ outer_rows (linked links (pk t))
                  ∧ o = (l ≫= λ pid, permission_tbl db !! pid).
Proof.
  unfold join_permissions. rewrite list_elem_of_fmap. split.
  - intros ([t' l] & Heq & Hin). simpl in Heq. simplify_eq.
    apply elem_of_left_outer_join in Hin as [Ht Hl]. split; [done|].
    by exists l.
  - intros (Ht & l & Hl & ->). exists (t, l). split; [done|].
    by apply elem_of_left_outer_join.
Qed.

(** [.filter(Q(is_owner_team=True) | Q(permissions__slug=perm_slug))] *)
Lemma filter_permissions (db : Database) (links : gset (Z * Z)) (flag : F → bool) qs
    perm_slug t :
  t ∈ where_ (λ t p, flag (fields t) || slug_eq perm_slug p)
        (join_permissions db links qs)
  ↔ t ∈ qs ∧ (flag (fields t) = true
              ∨ holds_permission db links (pk t) perm_slug).
Proof.
  rewrite elem_of_where_. split.
  - intros (o & Hin & Hc).
    apply elem_of_join_permissions in Hin as (Ht & l & Hl & ->).
    split; [done|]. apply orb_true_iff in Hc as [Hc|Hc]; [by left|right].
    destruct l as [pid|]; [|done]. simpl in Hc.
    destruct (permission_tbl db !! pid) as [p|] eqn:Hp; [|done].
    simpl in Hc. apply bool_decide_eq_true in Hc.
    apply elem_of_outer_rows in Hl as [[_ ?]|(pid' & ? & Hpid)]; [done|].
    simplify_eq. apply elem_of_linked in Hpid. by exists pid', p.
  - intros [Ht [Hf|(pid & p & Hl & Hp & Hs)]].
    + destruct (outer_rows_inhabited (linked links (pk t))) as [l Hl].
      exists (l ≫= λ pid, permission_tbl db !! pid). split.
      * apply elem_of_join_permissions. split; [done|]. by exists l.
      * by rewrite Hf.
    + exists (Some p). split.
      * apply elem_of_join_permissions. split; [done|].
        exists (Some pid). split; [|by simpl; rewrite Hp].
        apply elem_of_outer_rows. right. exists pid. split; [done|].
        by apply elem_of_linked.
      * apply orb_true_iff. right. simpl. by apply bool_decide_eq_true.
Qed.

End Filters.

(** ** Permission resolution *)

(** Closes a decidable goal by evaluation. *)
Ltac by_evaluation :=
  unfold member; apply (bool_decide_unpack _); vm_compute; exact I.

(** The project-team query is non-empty exactly when a project team grants. *)
Lemma Project_teams_query_grants db self user perm_slug :
  truthy (count (Project_teams_query db self user perm_slug)) = true
  ↔ project_team_grants db self user perm_slug.
Proof.
  rewrite truthy_count. unfold Project_teams_query, project_team_grants.
  split.
  - intros [t Ht]. exists t.
    apply filter_permissions in Ht as [Ht Hp].
    apply filter_users in Ht as [Ht Hm].
    apply list_elem_of_filter in Ht as [Hproj Ht].
    by apply elem_of_objects in Ht.
  - intros (t & Hrow & Hproj & Hm & Hp). exists t.
    apply filter_permissions. split; [|done].
    apply filter_users. split; [|done].
    apply list_elem_of_filter. split; [done|]. by apply elem_of_objects.
Qed.

Lemma Project_teams_query_denies db self user perm_slug :
  truthy (count (Project_teams_query db self user perm_slug)) = false
  ↔ ¬ project_team_grants db self user perm_slug.
Proof.
  rewrite <- Project_teams_query_grants. symmetry. apply not_true_iff_false.
Qed.

(** The organization-team query is non-empty exactly when one team under the
    organization passes all three filters. *)
Lemma Organization_teams_query_grants db self user perm_slug project :
  truthy (count (Organization_teams_query db self user perm_slug project))
    = true
  ↔ organization_team_grants project_set_matches db self user perm_slug
      project.
Proof.
  rewrite truthy_count.
  unfold Organization_teams_query, organization_team_grants. split.
  - intros [t Ht]. exists t.
    apply filter_permissions in Ht as [Ht Hp].
    apply filter_projects in Ht as [Ht Hs].
    apply filter_users in Ht as [Ht Hm].
    apply list_elem_of_filter in Ht as [Horg Ht].
    by apply elem_of_objects in Ht.
  - intros (t & Hrow & Horg & Hm & Hs & Hp). exists t.
    apply filter_permissions. split; [|done].
    apply filter_projects. split; [|done].
    apply filter_users. split; [|done].
    apply list_elem_of_filter. split; [done|]. by apply elem_of_objects.
Qed.

Lemma Organization_user_has_permission_grants db self user perm_slug project :
  Organization_user_has_permission db self user perm_slug project = true
  ↔ organization_team_grants project_set_matches db self user perm_slug
      project.
Proof.
  rewrite <- Organization_teams_query_grants.
  unfold Organization_user_has_permission.
  by destruct (truthy _).
Qed.

Lemma Project_check_granted db self user perm_slug :
  project_team_grants db self user perm_slug →
  Project_user_has_permission db self user perm_slug = Ok true.
Proof.
  intros Hg. unfold Project_user_has_permission.
  apply Project_teams_query_grants in Hg. by rewrite Hg.
Qed.

Lemma Project_check_delegated db self user perm_slug :
  ¬ project_team_grants db self user perm_slug →
  Project_user_has_permission db self user perm_slug
  = (ns ← get_subclass db (namespace_id (fields self));
     Namespace_user_has_permission db ns user perm_slug (Some self)).
Proof.
  intros Hn. unfold Project_user_has_permission.
  apply Project_teams_query_denies in Hn. by rewrite Hn.
Qed.

Lemma project_team_grants_dec db self user perm_slug :
  project_team_grants db self user perm_slug
  ∨ ¬ project_team_grants db self user perm_slug.
Proof.
  destruct (truthy (count (Project_teams_query db self user perm_slug)))
    eqn:Hq.
  - left. by apply Project_teams_query_grants.
  - right. by apply Project_teams_query_denies.
Qed.

(** C1. Permission resolution on a project has two tiers: when some team
    scoped to the project has the user as a member and is an owner team or
    holds a permission with the requested slug, the answer is true; otherwise
    the project's namespace is resolved to its concrete variant and the
    answer is that of the variant's rule, run with this project as
    context. *)
Theorem Project_permission_two_tier db (self : Project) (user : RepoUser)
    (perm_slug : string) :
  (project_team_grants db self user perm_slug →
     Project_user_has_permission db self user perm_slug = Ok true)
  ∧ (¬ project_team_grants db self user perm_slug →
     (∀ u, get_subclass db (namespace_id (fields self)) = Ok (NsRepoUser u) →
        Project_user_has_permission db self user perm_slug
        = Ok (RepoUser_user_has_permission u user perm_slug (Some self)))
     ∧ (∀ o, get_subclass db (namespace_id (fields self))
             = Ok (NsOrganization o) →
        Project_user_has_permission db self user perm_slug
        = Ok (Organization_user_has_permission db o user perm_slug
                (Some self)))).
Proof.
  split; [apply Project_check_granted|].
  intros Hn. rewrite (Project_check_delegated _ _ _ _ Hn).
  split; intros x Hx; by rewrite Hx.
Qed.

Lemma Project_permission_two_tier_witness :
  Project_user_has_permission example_db notes alice "deploy" = Ok true
  ∧ Project_user_has_permission example_db notes bob "deploy"
    = Ok (RepoUser_user_has_permission alice bob "deploy" (Some notes))
  ∧ Project_user_has_permission example_db widgets bob "deploy"
    = Ok (Organization_user_has_permission example_db acme bob "deploy"
            (Some widgets)).
Proof.
  split; [|split].
  - apply (proj1 (Project_permission_two_tier example_db notes alice "deploy")).
    exists notes_owners. split; [reflexivity|]. split; [reflexivity|].
    split; [by_evaluation | by left].
  - apply (proj2 (Project_permission_two_tier example_db notes bob "deploy")).
    + apply Project_teams_query_denies. reflexivity.
    + reflexivity.
  - apply (proj2 (Project_permission_two_tier example_db widgets bob "deploy")).
    + apply Project_teams_query_denies. reflexivity.
    + reflexivity.
Defined.

(** With a project given, the organization check answers true exactly when
    one single team under the organization has the user as a member, is
    flagged [is_all_projects] or has the given project in its project set,
    and is an owner team or holds a permission with the requested slug. *)
Lemma Organization_permission_given_project db (self : Organization)
    (user : RepoUser) (perm_slug : string) (p : Project) :
  Organization_user_has_permission db self user perm_slug (Some p) = true
  ↔ organization_team_grants project_set_contains db self user perm_slug
      (Some p).
Proof. apply Organization_user_has_permission_grants. Qed.

(** C2. The organization check is to answer true only when one single team
    under the organization has the user as a member, is flagged
    [is_all_projects] or has the given project in its project set, and is an
    owner team or holds the slug. With no project given the code answers
    true where that fails: bob's only team under acme holds "deploy" but is
    not flagged [is_all_projects] and has an empty project set, which
    contains no project, and the check answers true. *)
Theorem Organization_permission_absent_project :
  Organization_user_has_permission example_db acme bob "deploy" None = true
  ∧ ¬ organization_team_grants project_set_contains example_db acme bob
        "deploy" None.
Proof.
  split; [reflexivity|].
  intros ([k f] & Hrow & _ & Hm & [Hall|[]] & _). simpl in *.
  unfold member in Hm. simpl in Hm.
  apply elem_of_union in Hm as [Hm|Hm]; apply elem_of_singleton in Hm;
    [discriminate|].
  injection Hm as ->. vm_compute in Hrow. injection Hrow as <-. discriminate.
Qed.

(** With no project given, fewer projects grant more. Staff, linked only to
    notes, a project of alice, does not let bob deploy; once [make_consistent]
    has dropped that link, the team's project set is empty and it does. *)
Example repair_grants_without_project :
  Organization_user_has_permission staff_linked_db acme bob "deploy" None
    = false
  ∧ Organization_user_has_permission
      (make_consistent acme_staff staff_linked_db) acme bob "deploy" None
    = true.
Proof. split; vm_compute; reflexivity. Qed.

(** The owners of acme may deploy widgets although "deploy" was never granted
    to their team; staff reach widgets through neither flag nor project
    set. *)
Example acme_owner_deploys_widgets :
  Project_user_has_permission example_db widgets alice "deploy" = Ok true
  ∧ Project_user_has_permission example_db widgets bob "deploy" = Ok false.
Proof. split; reflexivity. Qed.

(** A slug without a record in the catalog matches no joined permission. *)
Lemma slug_eq_unknown db perm_slug (l : option Z) :
  ¬ in_catalog db perm_slug →
  slug_eq perm_slug (l ≫= λ pid, permission_tbl db !! pid) = false.
Proof.
  intros Hno. destruct l as [pid|]; [|done]. simpl.
  destruct (permission_tbl db !! pid) as [p|] eqn:Hp; [|done]. simpl.
  apply bool_decide_eq_false. intros Hs. apply Hno. by exists pid, p.
Qed.

(** An exception of the project check comes from resolving the namespace. *)
Lemma Project_user_has_permission_raises db self user perm_slug e :
  Project_user_has_permission db self user perm_slug = Raise e →
  ¬ resolves_to_variant db (namespace_id (fields self)).
Proof.
  unfold Project_user_has_permission.
  destruct (truthy _); [done|]. intros Hr [[u Hu]|[o Ho]].
  - by rewrite Hu in Hr.
  - by rewrite Ho in Hr.
Qed.

(** C3. When a team scoped to the project is an owner team and has the user
    as a member, the project check answers true for every slug, also for a
    slug the permission catalog has no record of; such a slug raises
    nothing, it only fails to match a joined permission, and whatever the
    slug, an exception can only come from resolving the namespace. *)
Theorem owner_team_bypass db (self : Project) (user : RepoUser)
    (t : ProjectTeam) :
  projectteam_tbl db !! pk t = Some (fields t) →
  project_id (fields t) = pk self →
  pt_is_owner_team (fields t) = true →
  member (projectteam_users db) (pk t) user →
  (∀ perm_slug, Project_user_has_permission db self user perm_slug = Ok true)
  ∧ (∀ perm_slug, ¬ in_catalog db perm_slug →
       ∀ l : option Z,
         slug_eq perm_slug (l ≫= λ pid, permission_tbl db !! pid) = false)
  ∧ (∀ (p : Project) (u : RepoUser) perm_slug e,
       Project_user_has_permission db p u perm_slug = Raise e →
       ¬ resolves_to_variant db (namespace_id (fields p))).
Proof.
  intros Hrow Hproj Hown Hm. split; [|split].
  - intros perm_slug. apply Project_check_granted.
    exists t. repeat split; try done. by left.
  - intros perm_slug Hno l. by apply slug_eq_unknown.
  - intros p u perm_slug e. apply Project_user_has_permission_raises.
Qed.

Lemma owner_team_bypass_witness :
  Project_user_has_permission example_db notes alice "launch" = Ok true.
Proof.
  refine (proj1 (owner_team_bypass example_db notes alice notes_owners
                   _ _ _ _) "launch");
    [reflexivity | reflexivity | reflexivity | by_evaluation].
Defined.

(** C4. The rule of a user namespace answers true exactly when the acting
    user is that user. So on a project whose namespace is a user, the owner
    holds every slug, and another user holds a slug exactly when a team of
    the project grants it. *)
Theorem User_permission_identity (self user : RepoUser) (perm_slug : string) :
  (∀ project,
     RepoUser_user_has_permission self user perm_slug project = true
     ↔ pk user = pk self)
  ∧ (∀ db (p : Project),
       get_subclass db (namespace_id (fields p)) = Ok (NsRepoUser self) →
       (pk user = pk self →
          Project_user_has_permission db p user perm_slug = Ok true)
       ∧ (pk user ≠ pk self →
          (project_team_grants db p user perm_slug →
             Project_user_has_permission db p user perm_slug = Ok true)
          ∧ (¬ project_team_grants db p user perm_slug →
             Project_user_has_permission db p user perm_slug = Ok false))).
Proof.
  split.
  - intros project. unfold RepoUser_user_has_permission. apply Z.eqb_eq.
  - intros db p Hns. split.
    + intros Heq.
      destruct (project_team_grants_dec db p user perm_slug) as [Hg|Hn];
        [by apply Project_check_granted|].
      rewrite (Project_check_delegated _ _ _ _ Hn), Hns. simpl.
      unfold RepoUser_user_has_permission. by rewrite Heq, Z.eqb_refl.
    + intros Hne. split; [apply Project_check_granted|]. intros Hn.
      rewrite (Project_check_delegated _ _ _ _ Hn), Hns. simpl.
      unfold RepoUser_user_has_permission.
      by apply Z.eqb_neq in Hne as ->.
Qed.

Lemma User_permission_identity_witness :
  Project_user_has_permission example_db notes alice "launch" = Ok true
  ∧ Project_user_has_permission example_db notes bob "launch" = Ok false.
Proof.
  split.
  - refine (proj1 (proj2 (User_permission_identity alice alice "launch")
                     example_db notes _) _); reflexivity.
  - refine (proj2 (proj2 (proj2 (User_permission_identity alice bob "launch")
                            example_db notes _) _) _).
    + reflexivity.
    + discriminate.
    + apply Project_teams_query_denies. reflexivity.
Defined.

(** A namespace id that resolves to neither variant has no row, or a row
    that belongs to neither child model. *)
Lemma get_subclass_unresolved db id :
  ¬ resolves_to_variant db id →
  get_subclass db id
  = match namespace_tbl db !! id with
    | None => Raise DoesNotExist
    | Some ns => Ok (NsPlain (MkInstance id ns))
    end.
Proof.
  intros Hno. unfold get_subclass.
  destruct (namespace_tbl db !! id) as [ns|] eqn:Hns; [|done].
  destruct (repouser_tbl db !! id) as [u|] eqn:Hu.
  - exfalso. apply Hno. left. eexists. unfold get_subclass.
    by rewrite Hns, Hu.
  - destruct (bool_decide (id ∈ organization_tbl db)) eqn:Ho; [|done].
    exfalso. apply Hno. right. eexists. unfold get_subclass.
    by rewrite Hns, Hu, Ho.
Qed.

(** C8 (amended). When a project's namespace id resolves to neither a user
    nor an organization, the project check raises unless a team of the
    project grants: [DoesNotExist] when the namespace row is missing,
    [AttributeError] when the row belongs to neither variant; it answers
    neither true nor false there. When a team of the project grants, the
    answer is true and the namespace is not resolved. Provisioning for a
    project whose namespace row is missing raises [DoesNotExist]. *)
Theorem unresolved_namespace_raises db (self : Project) :
  ¬ resolves_to_variant db (namespace_id (fields self)) →
  (∀ user perm_slug,
     ¬ project_team_grants db self user perm_slug →
     Project_user_has_permission db self user perm_slug
     = Raise (match namespace_tbl db !! namespace_id (fields self) with
              | None => DoesNotExist
              | Some _ => AttributeError
              end))
  ∧ (∀ user perm_slug,
       project_team_grants db self user perm_slug →
       Project_user_has_permission db self user perm_slug = Ok true)
  ∧ (namespace_tbl db !! namespace_id (fields self) = None →
     create_project_owner_team (Some self) true db = Raise DoesNotExist).
Proof.
  intros Hno. split; [|split].
  - intros user perm_slug Hn.
    rewrite (Project_check_delegated _ _ _ _ Hn).
    rewrite (get_subclass_unresolved _ _ Hno).
    by destruct (namespace_tbl db !! namespace_id (fields self)).
  - intros user perm_slug. apply Project_check_granted.
  - intros Hrow. unfold create_project_owner_team.
    rewrite (get_subclass_unresolved _ _ Hno). by rewrite Hrow.
Qed.

Lemma not_resolves_orphan :
  ¬ resolves_to_variant example_db (namespace_id (fields orphan)).
Proof. intros [[u Hu]|[o Ho]]; discriminate. Qed.

Lemma not_resolves_limbo :
  ¬ resolves_to_variant example_db (namespace_id (fields limbo)).
Proof. intros [[u Hu]|[o Ho]]; discriminate. Qed.

Lemma unresolved_namespace_raises_witness :
  Project_user_has_permission example_db orphan alice "deploy"
    = Raise DoesNotExist
  ∧ Project_user_has_permission example_db limbo alice "deploy"
    = Raise AttributeError
  ∧ create_project_owner_team (Some orphan) true example_db
    = Raise DoesNotExist.
Proof.
  split; [|split].
  - refine (proj1 (unresolved_namespace_raises example_db orphan
                     not_resolves_orphan) alice "deploy" _).
    apply Project_teams_query_denies. reflexivity.
  - refine (proj1 (unresolved_namespace_raises example_db limbo
                     not_resolves_limbo) alice "deploy" _).
    apply Project_teams_query_denies. reflexivity.
  - refine (proj2 (proj2 (unresolved_namespace_raises example_db orphan
                            not_resolves_orphan)) _).
    reflexivity.
Defined.

(** C8, as stated, fails: project 9 points at a namespace that has no row,
    yet bob, a member of its owner team, is silently granted. *)
Lemma unresolved_namespace_granted :
  ¬ resolves_to_variant example_db (namespace_id (fields orphan))
  ∧ Project_user_has_permission example_db orphan bob "deploy" = Ok true.
Proof. split; [apply not_resolves_orphan | reflexivity]. Qed.

(** ** Consistency of organization teams *)

Lemma elem_of_m2m_assign links owner targets (o x : Z) :
  (o, x) ∈ m2m_assign links owner targets
  ↔ (o ≠ owner ∧ (o, x) ∈ links) ∨ (o = owner ∧ x ∈ targets).
Proof.
  unfold m2m_assign, m2m_add, m2m_clear.
  rewrite elem_of_union, elem_of_filter, elem_of_list_to_set,
    list_elem_of_fmap. simpl. split.
  - intros [H|(y & Heq & Hy)]; [by left|]. simplify_eq. by right.
  - intros [H|[-> Hx]]; [by left|]. right. by exists x.
Qed.

Lemma elem_of_OrganizationTeam_projects db self (p : Project) :
  p ∈ OrganizationTeam_projects db self
  ↔ (pk self, pk p) ∈ organizationteam_projects db
    ∧ project_tbl db !! pk p = Some (fields p).
Proof.
  unfold OrganizationTeam_projects. rewrite list_elem_of_omap. split.
  - intros (pid & Hl & Hp). apply elem_of_linked in Hl.
    destruct (project_tbl db !! pid) as [row|] eqn:Hrow; [|done].
    simpl in Hp. by simplify_eq.
  - intros [Hl Hrow]. exists (pk p). split; [by apply elem_of_linked|].
    rewrite Hrow. by destruct p.
Qed.

(** The projects [make_consistent] keeps linked to the team. *)
Lemma elem_of_kept db (self : OrganizationTeam) (x : Z) :
  x ∈ pk <$> filter (λ p : Project,
                       namespace_id (fields p) = organization_id (fields self))
                    (OrganizationTeam_projects db self)
  ↔ (pk self, x) ∈ organizationteam_projects db
    ∧ ∃ row, project_tbl db !! x = Some row
             ∧ namespace_id row = organization_id (fields self).
Proof.
  rewrite list_elem_of_fmap. split.
  - intros (p & -> & Hp). apply list_elem_of_filter in Hp as [Hns Hp].
    apply elem_of_OrganizationTeam_projects in Hp as [Hl Hrow].
    split; [done|]. by exists (fields p).
  - intros (Hl & row & Hrow & Hns). exists (MkInstance x row).
    split; [done|]. apply list_elem_of_filter. split; [done|].
    by apply elem_of_OrganizationTeam_projects.
Qed.

Lemma elem_of_projects_made_consistent db (self : OrganizationTeam) (o x : Z) :
  (o, x) ∈ organizationteam_projects (OrganizationTeam_make_consistent self db)
  ↔ (o, x) ∈ organizationteam_projects db
    ∧ (o = pk self →
       ∃ row, project_tbl db !! x = Some row
              ∧ namespace_id row = organization_id (fields self)).
Proof.
  unfold OrganizationTeam_make_consistent. simpl.
  rewrite elem_of_m2m_assign, elem_of_kept. split.
  - intros [[Hne Hl]|[-> [Hl Hrow]]]; by split.
  - intros [Hl Hrow]. destruct (decide (o = pk self)) as [->|Hne].
    + right. split; [done|]. split; [done|]. by apply Hrow.
    + by left.
Qed.

Lemma OrganizationTeam_check_consistent_spec db (self : OrganizationTeam) :
  OrganizationTeam_check_consistent db self = true
  ↔ ∀ pid row, (pk self, pid) ∈ organizationteam_projects db →
               project_tbl db !! pid = Some row →
               namespace_id row = organization_id (fields self).
Proof.
  unfold OrganizationTeam_check_consistent, count. split.
  - intros Hc pid row Hl Hrow. apply Z.eqb_eq in Hc.
    destruct (decide (namespace_id row = organization_id (fields self)))
      as [|Hne]; [done|]. exfalso.
    assert (MkInstance pid row
            ∈ filter (λ p : Project,
                        namespace_id (fields p) ≠ organization_id (fields self))
                     (OrganizationTeam_projects db self)) as Hin.
    { apply list_elem_of_filter. split; [done|].
      by apply elem_of_OrganizationTeam_projects. }
    destruct (filter _ _); [by apply elem_of_nil in Hin | done].
  - intros Hall. apply Z.eqb_eq.
    destruct (filter _ _) as [|p ps] eqn:Hf; [done|]. exfalso.
    assert (p ∈ p :: ps) as Hin by left. rewrite <- Hf in Hin.
    apply list_elem_of_filter in Hin as [Hne Hin].
    apply elem_of_OrganizationTeam_projects in Hin as [Hl Hrow].
    apply Hne. by eapply Hall.
Qed.

Lemma Database_eq (db1 db2 : Database) :
  namespace_tbl db1 = namespace_tbl db2 →
  repouser_tbl db1 = repouser_tbl db2 →
  organization_tbl db1 = organization_tbl db2 →
  project_tbl db1 = project_tbl db2 →
  permission_tbl db1 = permission_tbl db2 →
  organizationteam_tbl db1 = organizationteam_tbl db2 →
  organizationteam_users db1 = organizationteam_users db2 →
  organizationteam_permissions db1 = organizationteam_permissions db2 →
  organizationteam_projects db1 = organizationteam_projects db2 →
  projectteam_tbl db1 = projectteam_tbl db2 →
  projectteam_users db1 = projectteam_users db2 →
  projectteam_permissions db1 = projectteam_permissions db2 →
  db1 = db2.
Proof.
  destruct db1, db2. simpl.
  by intros -> -> -> -> -> -> -> -> -> -> -> ->.
Qed.

(** C6. After [make_consistent] on an organization team, [check_consistent]
    answers true, from every starting state: every project still linked to
    the team has the team's organization as its namespace. *)
Theorem make_consistent_then_check db (self : OrganizationTeam) :
  check_consistent (make_consistent self db) self = true
  ∧ ∀ pid row,
      (pk self, pid) ∈ organizationteam_projects (make_consistent self db) →
      project_tbl (make_consistent self db) !! pid = Some row →
      namespace_id row = organization_id (fields self).
Proof.
  assert (∀ pid row,
    (pk self, pid)
      ∈ organizationteam_projects (OrganizationTeam_make_consistent self db) →
    project_tbl (OrganizationTeam_make_consistent self db) !! pid = Some row →
    namespace_id row = organization_id (fields self)) as Hall.
  { intros pid row Hl Hrow.
    apply elem_of_projects_made_consistent in Hl as [_ Hl].
    destruct (Hl eq_refl) as (row' & Hrow' & Hns).
    unfold OrganizationTeam_make_consistent in Hrow. simpl in Hrow.
    by simplify_eq. }
  split; [|done]. simpl. by apply OrganizationTeam_check_consistent_spec.
Qed.

(** C7. [make_consistent] on an organization team is idempotent: a second
    call leaves the whole database, the team's project set included, as the
    first call left it. *)
Theorem make_consistent_idempotent db (self : OrganizationTeam) :
  make_consistent self (make_consistent self db) = make_consistent self db
  ∧ organizationteam_projects (make_consistent self (make_consistent self db))
    = organizationteam_projects (make_consistent self db).
Proof.
  assert (organizationteam_projects
            (OrganizationTeam_make_consistent self
               (OrganizationTeam_make_consistent self db))
          = organizationteam_projects
              (OrganizationTeam_make_consistent self db)) as Hlinks.
  { apply set_eq. intros [o x].
    rewrite elem_of_projects_made_consistent. split; [by intros [? _]|].
    intros Hl. split; [done|]. intros ->.
    apply elem_of_projects_made_consistent in Hl as [_ Hl].
    destruct (Hl eq_refl) as (row & Hrow & Hns). by exists row. }
  split; [|done]. simpl. apply Database_eq; try done.
  unfold OrganizationTeam_make_consistent, save. simpl.
  apply insert_insert_eq.
Qed.

(** A team of acme linked to widgets (acme's) and notes (alice's) is
    inconsistent; repairing it drops notes and nothing else. *)
Example mixed_team_repaired :
  check_consistent example_db acme_mixed = false
  ∧ check_consistent (make_consistent acme_mixed example_db) acme_mixed = true
  ∧ organizationteam_projects (make_consistent acme_mixed example_db)
    = {[ (6, 7) ]}.
Proof. repeat split; vm_compute; reflexivity. Qed.

(** C9. For a team that is not an organization team (a project team, and
    the defaults of the abstract base), [check_consistent] answers true in
    every state and [make_consistent] leaves the whole state as it was. *)
Theorem base_team_consistency db :
  (∀ self : ProjectTeam,
     check_consistent db self = true ∧ make_consistent self db = db)
  ∧ (∀ (T : Type) (self : T),
       Team_check_consistent db self = true
       ∧ Team_make_consistent self db = db).
Proof. split; intros; by split. Qed.

(** ** Owner-team provisioning *)

(** C5. After a project whose namespace resolves to a user is created, the
    provisioner has added exactly one project team: named "Owners", scoped to
    the project, an owner team, with that user as its only member; when the
    namespace resolves to an organization it adds nothing. After an
    organization is created, it has added exactly one organization team:
    named "Owners", scoped to the organization, an owner team over all
    projects, with no member. *)
Theorem owner_team_provisioning db :
  (∀ (inst : Project) (u : RepoUser),
     get_subclass db (namespace_id (fields inst)) = Ok (NsRepoUser u) →
     ∃ tid db',
       create_project_owner_team (Some inst) true db = Ok db'
       ∧ projectteam_tbl db !! tid = None
       ∧ projectteam_tbl db'
         = <[tid := {| pt_name := "Owners"; pt_is_owner_team := true;
                       project_id := pk inst |}]> (projectteam_tbl db)
       ∧ (∀ t x, (t, x) ∈ projectteam_users db'
                 ↔ (t = tid ∧ x = pk u)
                   ∨ (t ≠ tid ∧ (t, x) ∈ projectteam_users db))
       ∧ projectteam_permissions db' = projectteam_permissions db
       ∧ organizationteam_tbl db' = organizationteam_tbl db)
  ∧ (∀ (inst : Project) (o : Organization),
       get_subclass db (namespace_id (fields inst)) = Ok (NsOrganization o) →
       create_project_owner_team (Some inst) true db = Ok db)
  ∧ (∀ org : Organization,
       links_start_in (organizationteam_tbl db) (organizationteam_users db) →
       ∃ tid,
         organizationteam_tbl db !! tid = None
         ∧ organizationteam_tbl (create_organization_owner_team (Some org)
                                   true db)
           = <[tid := {| ot_name := "Owners"; ot_is_owner_team := true;
                         organization_id := pk org;
                         is_all_projects := true |}]>
               (organizationteam_tbl db)
         ∧ (∀ x, (tid, x) ∉ organizationteam_users
                              (create_organization_owner_team (Some org)
                                 true db))
         ∧ projectteam_tbl (create_organization_owner_team (Some org) true db)
           = projectteam_tbl db).
Proof.
  split; [|split].
  - intros inst u Hns. unfold create_project_owner_team. rewrite Hns. simpl.
    set (row := {| pt_name := "Owners"; pt_is_owner_team := true;
                   project_id := pk inst |}).
    set (tid := fresh (dom (projectteam_tbl db))).
    eexists tid, _. split; [reflexivity|]. simpl.
    split; [apply not_elem_of_dom, is_fresh|].
    split; [unfold save; simpl; apply insert_insert_eq|].
    split; [|done]. intros t x. rewrite elem_of_m2m_assign.
    rewrite list_elem_of_singleton. split.
    + intros [[Hne Hl]|[-> ->]]; [by right | by left].
    + intros [[-> ->]|[Hne Hl]]; [by right | by left].
  - intros inst o Hns. unfold create_project_owner_team. by rewrite Hns.
  - intros org Hlinks. unfold create_organization_owner_team. simpl.
    set (tid := fresh (dom (organizationteam_tbl db))).
    assert (tid ∉ dom (organizationteam_tbl db)) as Hfresh by apply is_fresh.
    exists tid. split; [by apply not_elem_of_dom|]. split; [done|].
    split; [|done]. intros x Hx. apply Hfresh. by apply (Hlinks _ Hx).
Qed.

Lemma owner_team_provisioning_witness :
  (∃ tid db',
     create_project_owner_team (Some notes) true example_db = Ok db'
     ∧ projectteam_tbl example_db !! tid = None
     ∧ projectteam_tbl db'
       = <[tid := {| pt_name := "Owners"; pt_is_owner_team := true;
                     project_id := pk notes |}]> (projectteam_tbl example_db)
     ∧ (∀ t x, (t, x) ∈ projectteam_users db'
               ↔ (t = tid ∧ x = pk alice)
                 ∨ (t ≠ tid ∧ (t, x) ∈ projectteam_users example_db))
     ∧ projectteam_permissions db' = projectteam_permissions example_db
     ∧ organizationteam_tbl db' = organizationteam_tbl example_db)
  ∧ create_project_owner_team (Some widgets) true example_db = Ok example_db
  ∧ (∃ tid,
       organizationteam_tbl example_db !! tid = None
       ∧ organizationteam_tbl (create_organization_owner_team (Some acme)
                                 true example_db)
         = <[tid := {| ot_name := "Owners"; ot_is_owner_team := true;
                       organization_id := pk acme;
                       is_all_projects := true |}]>
             (organizationteam_tbl example_db)
       ∧ (∀ x, (tid, x) ∉ organizationteam_users
                            (create_organization_owner_team (Some acme)
                               true example_db))
       ∧ projectteam_tbl (create_organization_owner_team (Some acme) true
                            example_db)
         = projectteam_tbl example_db).
Proof.
  split; [|split].
  - apply (proj1 (owner_team_provisioning example_db) notes alice).
    reflexivity.
  - apply (proj1 (proj2 (owner_team_provisioning example_db)) widgets acme).
    reflexivity.
  - apply (proj2 (proj2 (owner_team_provisioning example_db)) acme).
    unfold links_start_in. by_evaluation.
Defined.

(** ** Creating users *)

Section RepoUserManagerFacts.

Variable normalize_email : string → string.
Variable make_password : string → string.
Variable last_login_null : bool.

Lemma _create_user_result db username email password staff superuser
    extra_fields now (user : RepoUser) db' :
  _create_user normalize_email make_password last_login_null db username
    email password staff superuser extra_fields now = Ok (user, db') →
  is_superuser (fields user).2 = true
  ∧ is_active (fields user).2 = true
  ∧ repouser_tbl db' !! pk user = Some (fields user).2.
Proof.
  unfold _create_user.
  repeat match goal with
         | |- context [if bool_decide ?P then Raise _ else _] =>
             destruct (bool_decide P); [done|]
         end.
  destruct (negb last_login_null && _); [done|].
  intros [= <- <-]. simpl. split; [done|]. split; [done|].
  apply lookup_insert_eq.
Qed.

(** With a user name that is not empty and not taken, and no extra
    fields, a user is created. *)
Lemma _create_user_returns db username email password staff superuser
    now :
  username ≠ "" →
  (∀ id row, namespace_tbl db !! id = Some row → name row ≠ username) →
  ∃ user db',
    _create_user normalize_email make_password last_login_null db username
      email password staff superuser ∅ now = Ok (user, db').
Proof.
  intros Hname Hfree. unfold _create_user.
  rewrite bool_decide_eq_false_2 by done.
  rewrite bool_decide_eq_false_2.
  2: { intros Hex. apply Exists_exists in Hex as (kw & _ & Hkw).
       rewrite lookup_empty in Hkw. by destruct Hkw. }
  rewrite bool_decide_eq_false_2
    by (rewrite lookup_empty; by intros [? ?]).
  rewrite bool_decide_eq_false_2.
  2: { intros (kw & v & Hkw & _). by rewrite lookup_empty in Hkw. }
  rewrite bool_decide_eq_false_2.
  2: { intros (id & row & Hl & _ & Heq). by apply (Hfree id row). }
  rewrite lookup_empty, bool_decide_eq_false_2 by done.
  rewrite andb_false_r. by eexists _, _.
Qed.

End RepoUserManagerFacts.

(** C10. Every user record [_create_user] produces has [is_superuser] and
    [is_active] set, whatever [is_superuser] argument it was called with; so
    the public entry points built on it create superusers only. *)
Theorem create_user_always_superuser (normalize_email make_password :
    string → string) (last_login_null : bool) db username email password
    extra_fields now (user : RepoUser) db' :
  (∀ staff superuser,
     _create_user normalize_email make_password last_login_null db username
       email password staff superuser extra_fields now = Ok (user, db') →
     is_superuser (fields user).2 = true
     ∧ is_active (fields user).2 = true
     ∧ repouser_tbl db' !! pk user = Some (fields user).2)
  ∧ (create_user normalize_email make_password last_login_null db username
       email password extra_fields now = Ok (user, db') →
     is_superuser (fields user).2 = true
     ∧ is_active (fields user).2 = true
     ∧ repouser_tbl db' !! pk user = Some (fields user).2)
  ∧ (create_superuser normalize_email make_password last_login_null db
       username email password extra_fields now = Ok (user, db') →
     is_superuser (fields user).2 = true
     ∧ is_active (fields user).2 = true
     ∧ repouser_tbl db' !! pk user = Some (fields user).2).
Proof.
  split; [|split].
  - intros staff superuser. apply _create_user_result.
  - unfold create_user. apply _create_user_result.
  - unfold create_superuser. apply _create_user_result.
Qed.

Lemma create_user_always_superuser_witness :
  is_superuser (fields carol).2 = true
  ∧ is_active (fields carol).2 = true
  ∧ repouser_tbl carol_db !! pk carol = Some (fields carol).2.
Proof.
  apply (proj1 (proj2 (create_user_always_superuser id id false example_db
                         "carol" "carol@example.org" "secret" ∅ 5 carol
                         carol_db))).
  vm_compute. reflexivity.
Defined.

(** ** Name patterns *)

Lemma star_class p fuel pos s k :
  (length s ≤ fuel)%nat →
  star fuel (run (Class p)) pos s k = true
  ↔ ∃ u v, s = u ++ v ∧ Forall (λ c, p c = true) u
           ∧ k (pos + length u)%nat v = true.
Proof.
  revert pos s. induction fuel as [|fuel IH]; intros pos s Hlen; simpl.
  - destruct s; [|simpl in Hlen; lia]. rewrite orb_false_r. split.
    + intros Hk. exists [], []. by rewrite Nat.add_0_r.
    + intros (u & v & Heq & _ & Hk). symmetry in Heq.
      apply app_eq_nil in Heq as [-> ->]. by rewrite Nat.add_0_r in Hk.
  - rewrite orb_true_iff. split.
    + intros [Hk|Hstep].
      * exists [], s. by rewrite Nat.add_0_r.
      * destruct s as [|c s']; [done|].
        apply andb_true_iff in Hstep as [Hc Hrest].
        apply andb_true_iff in Hrest as [_ Hrest].
        apply IH in Hrest as (u & v & -> & Hu & Hk);
          [|simpl in Hlen; lia].
        exists (c :: u), v. split; [done|]. split; [by constructor|].
        simpl. by rewrite Nat.add_succ_r.
    + intros (u & v & -> & Hu & Hk). destruct u as [|c u].
      * left. by rewrite Nat.add_0_r in Hk.
      * right. simpl. apply Forall_cons in Hu as [Hc Hu]. rewrite Hc. simpl.
        apply andb_true_iff. split; [apply Nat.ltb_lt; lia|].
        apply IH; [simpl in Hlen; lia|]. exists u, v.
        split; [done|]. split; [done|].
        simpl in Hk. by rewrite Nat.add_succ_r in Hk.
Qed.

Lemma plus_class p pos s k :
  run (Plus (Class p)) pos s k = true
  ↔ ∃ u v, s = u ++ v ∧ u ≠ [] ∧ Forall (λ c, p c = true) u
           ∧ k (pos + length u)%nat v = true.
Proof.
  simpl. split.
  - destruct s as [|c s']; [done|]. intros Hrun.
    apply andb_true_iff in Hrun as [Hc Hrest].
    apply star_class in Hrest as (u & v & -> & Hu & Hk); [|done].
    exists (c :: u), v. split; [done|]. split; [done|].
    split; [by constructor|]. simpl. by rewrite Nat.add_succ_r.
  - intros (u & v & -> & Hne & Hu & Hk). destruct u as [|c u]; [done|].
    simpl. apply Forall_cons in Hu as [Hc Hu]. rewrite Hc. simpl.
    apply star_class; [done|]. exists u, v. split; [done|]. split; [done|].
    simpl in Hk. by rewrite Nat.add_succ_r in Hk.
Qed.

Lemma run_Eol pos s :
  run Eol pos s (λ _ _, true) = true ↔ s = [] ∨ s = [newline].
Proof.
  simpl. destruct s as [|c [|c' s']].
  - split; [by left | done].
  - rewrite andb_true_r, Ascii.eqb_eq. split.
    + intros ->. by right.
    + intros [?|[= ->]]; done.
  - split; [done | by intros [?|?]].
Qed.

(** A pattern that starts with [^] can only match at the start. *)
Lemma search_anchored r value :
  search (Seq Bol r) value = run r 0 value (λ _ _, true).
Proof.
  unfold search. simpl. rewrite drop_0.
  destruct (existsb _ (seq 1 (length value))) eqn:Hex; [|by rewrite orb_false_r].
  apply existsb_exists in Hex as (i & Hi & Hrun).
  apply in_seq in Hi. apply andb_true_iff in Hrun as [Hrun _].
  apply Nat.eqb_eq in Hrun. lia.
Qed.

Lemma EXTENDED_NAME_REGEX_search value :
  search EXTENDED_NAME_REGEX value = true
  ↔ ∃ w, up_to_final_newline w value ∧ extended_name w.
Proof.
  unfold EXTENDED_NAME_REGEX, EXTENDED_CHAR_REGEX. rewrite search_anchored.
  change (run (Seq (Plus (Class extended_char)) Eol) 0 value (λ _ _, true))
    with (run (Plus (Class extended_char)) 0 value
            (λ pos s, run Eol pos s (λ _ _, true))).
  rewrite plus_class. unfold up_to_final_newline, extended_name. split.
  - intros (u & v & -> & Hne & Hu & Hv). apply run_Eol in Hv as [->| ->].
    + exists u. rewrite app_nil_r. by split; [left|].
    + exists u. by split; [right|].
  - intros (w & [->| ->] & Hne & Hw).
    + exists w, []. rewrite app_nil_r. by repeat split.
    + exists w, [newline]. by repeat split.
Qed.

Lemma extended_char_trim_char c : extended_char c = true → trim_char c = true.
Proof.
  unfold extended_char, trim_char. rewrite !orb_true_iff. intuition.
Qed.

(** A non-empty run of name characters starts and ends with one. *)
Lemma extended_name_ends u :
  extended_name u →
  (∃ c, head u = Some c ∧ extended_char c = true)
  ∧ (∃ c, last u = Some c ∧ extended_char c = true).
Proof.
  intros [Hne Hu]. split.
  - destruct u as [|c u]; [done|]. exists c. split; [done|].
    by apply Forall_cons in Hu as [Hc _].
  - apply last_is_Some in Hne as [c Hc]. exists c. split; [done|].
    apply last_Some_elem_of in Hc. by apply (proj1 (Forall_forall _ _) Hu).
Qed.

Lemma extended_name_trimmed u : extended_name u → trimmed_name u.
Proof.
  intros Hu. split; [|by apply extended_name_ends].
  destruct Hu as [_ Hu]. eapply Forall_impl; [exact Hu|].
  apply extended_char_trim_char.
Qed.

Lemma TRIM_NAME_REGEX_search value :
  search TRIM_NAME_REGEX value = true
  ↔ ∃ w, up_to_final_newline w value ∧ trimmed_name w.
Proof.
  unfold TRIM_NAME_REGEX, EXTENDED_CHAR_REGEX. rewrite search_anchored.
  set (keol := λ (pos : nat) (s : list ascii), run Eol pos s (λ _ _, true)).
  set (klast := λ (pos : nat) (s : list ascii),
                  run (Plus (Class extended_char)) pos s keol).
  change (run _ 0 value _)
    with (run (Plus (Class extended_char)) 0 value
            (λ pos s,
               star (length s) (run (Class trim_char)) pos s klast
               || keol pos s)).
  rewrite plus_class. split.
  - intros (u & v & -> & Hne & Hu & Hv).
    assert (extended_name u) as Hext by done.
    apply orb_true_iff in Hv as [Hv|Hv].
    + apply star_class in Hv as (m & r1 & -> & Hm & Hl); [|done].
      apply plus_class in Hl as (l & t & -> & Hlne & Hl & Ht).
      exists (u ++ m ++ l). split.
      * apply run_Eol in Ht as [->| ->]; [left|right];
          by rewrite <- ?(assoc_L (++)), ?app_nil_r.
      * split; [|split].
        -- apply Forall_app. split;
             [by apply extended_name_trimmed|].
           apply Forall_app. split; [done|].
           by apply (extended_name_trimmed l).
        -- destruct (extended_name_ends u Hext) as [(c & Hc & Hcc) _].
           exists c. split; [|done]. rewrite head_app. by rewrite Hc.
        -- destruct (extended_name_ends l) as [_ (c & Hc & Hcc)]; [done|].
           exists c. split; [|done]. rewrite !last_app. by rewrite Hc.
    + exists u. split; [|by apply extended_name_trimmed].
      apply run_Eol in Hv as [->| ->]; [left|right]; by rewrite ?app_nil_r.
  - intros (w & Hvalue & Hw & (c0 & Hhead & Hc0) & (cl & Hlast & Hcl)).
    assert (∃ t, value = w ++ t ∧ ∀ pos, keol pos t = true)
      as (t & -> & Ht).
    { destruct Hvalue as [->| ->].
      - exists []. by rewrite app_nil_r.
      - by exists [newline]. }
    clear Hvalue. destruct w as [|c w']; [done|]. simpl in Hhead.
    simplify_eq. exists [c0], (w' ++ t). split; [done|]. split; [done|].
    split; [by repeat constructor|].
    apply orb_true_iff. destruct w' as [|c w' _] using rev_ind.
    + by right.
    + left. rewrite last_cons, last_snoc in Hlast.
      simplify_eq. apply Forall_cons in Hw as [_ Hw].
      apply Forall_app in Hw as [Hw _].
      apply star_class; [done|]. exists w', ([cl] ++ t).
      split; [by rewrite <- (assoc_L (++))|]. split; [done|].
      apply plus_class. exists [cl], t. split; [done|]. split; [done|].
      split; [by repeat constructor | done].
Qed.

Lemma RegexValidator_Passes r message code value :
  RegexValidator r message code value = Passes
  ↔ search r (String.list_ascii_of_string value) = true.
Proof. unfold RegexValidator. by destruct (search _ _). Qed.

(** X1. The validators of namespace and project names pass exactly the
    values that, less one optional final newline, are non-empty and made of
    letters, digits, underscore, [.], [@], [+] and [-] only. *)
Theorem name_validators_pass value :
  (Namespace_name_validator value = Passes
   ↔ ∃ w, up_to_final_newline w (String.list_ascii_of_string value)
          ∧ extended_name w)
  ∧ (Project_name_validator value = Passes
     ↔ ∃ w, up_to_final_newline w (String.list_ascii_of_string value)
            ∧ extended_name w).
Proof.
  split; unfold Namespace_name_validator, Project_name_validator;
    rewrite RegexValidator_Passes; apply EXTENDED_NAME_REGEX_search.
Qed.

(** X2. The validators of version and file names pass exactly the values
    that, less one optional final newline, are made of name characters and
    spaces and both start and end with a name character. *)
Theorem trimmed_name_validators_pass value :
  (Version_name_validator value = Passes
   ↔ ∃ w, up_to_final_newline w (String.list_ascii_of_string value)
          ∧ trimmed_name w)
  ∧ (File_name_validator value = Passes
     ↔ ∃ w, up_to_final_newline w (String.list_ascii_of_string value)
            ∧ trimmed_name w).
Proof.
  split; unfold Version_name_validator, File_name_validator;
    rewrite RegexValidator_Passes; apply TRIM_NAME_REGEX_search.
Qed.

(** X3. A value the namespace name validator passes is passed by the
    version and file name validators as well. *)
Theorem extended_names_are_trimmed_names value :
  Namespace_name_validator value = Passes →
  Version_name_validator value = Passes ∧ File_name_validator value = Passes.
Proof.
  unfold Namespace_name_validator, Version_name_validator,
    File_name_validator.
  rewrite !RegexValidator_Passes, EXTENDED_NAME_REGEX_search,
    TRIM_NAME_REGEX_search.
  intros (w & Hvalue & Hw).
  split; exists w; (split; [done | by apply extended_name_trimmed]).
Qed.

Lemma extended_names_are_trimmed_names_witness :
  Version_name_validator "acme" = Passes
  ∧ File_name_validator "acme" = Passes.
Proof. apply extended_names_are_trimmed_names. reflexivity. Defined.

(** ** More on permission resolution *)

Lemma Organization_check_ext db db' o o' v v' perm_slug project project' :
  (organization_team_grants project_set_matches db' o' v' perm_slug project'
   ↔ organization_team_grants project_set_matches db o v perm_slug project) →
  Organization_user_has_permission db' o' v' perm_slug project'
  = Organization_user_has_permission db o v perm_slug project.
Proof.
  intros Hiff. apply eq_true_iff_eq.
  by rewrite !Organization_user_has_permission_grants.
Qed.

Lemma Project_check_ext db db' (p : Project) v v' perm_slug :
  (project_team_grants db' p v' perm_slug
   ↔ project_team_grants db p v perm_slug) →
  (ns ← get_subclass db' (namespace_id (fields p));
   Namespace_user_has_permission db' ns v' perm_slug (Some p))
  = (ns ← get_subclass db (namespace_id (fields p));
     Namespace_user_has_permission db ns v perm_slug (Some p)) →
  Project_user_has_permission db' p v' perm_slug
  = Project_user_has_permission db p v perm_slug.
Proof.
  intros Hiff Hns.
  destruct (project_team_grants_dec db p v perm_slug) as [Hg|Hn].
  - rewrite (Project_check_granted db) by done.
    apply Project_check_granted. by apply Hiff.
  - rewrite (Project_check_delegated db) by done.
    rewrite (Project_check_delegated db') by (by rewrite Hiff). done.
Qed.

(** X4. When no team of the project grants, the organization tier does: on
    a project whose namespace resolves to an organization, a member of one of
    its teams that covers the project (all projects, or the project is in its
    set) and is an owner team or holds the slug is granted. *)
Theorem organization_tier_grants db (p : Project) (o : Organization)
    (v : RepoUser) (t : OrganizationTeam) (perm_slug : string) :
  get_subclass db (namespace_id (fields p)) = Ok (NsOrganization o) →
  organizationteam_tbl db !! pk t = Some (fields t) →
  organization_id (fields t) = pk o →
  member (organizationteam_users db) (pk t) v →
  is_all_projects (fields t) = true
  ∨ (pk t, pk p) ∈ organizationteam_projects db →
  ot_is_owner_team (fields t) = true
  ∨ holds_permission db (organizationteam_permissions db) (pk t) perm_slug →
  Project_user_has_permission db p v perm_slug = Ok true.
Proof.
  intros Hns Hrow Horg Hm Hscope Hperm.
  destruct (project_team_grants_dec db p v perm_slug) as [Hg|Hn];
    [by apply Project_check_granted|].
  rewrite (Project_check_delegated _ _ _ _ Hn), Hns. simpl. f_equal.
  apply Organization_user_has_permission_grants. by exists t.
Qed.

Lemma organization_tier_grants_witness :
  Project_user_has_permission example_db widgets alice "launch" = Ok true.
Proof.
  apply (organization_tier_grants example_db widgets acme alice acme_owners);
    [reflexivity | reflexivity | reflexivity | by_evaluation
    | by left | by left].
Defined.

(** X5. A grant needs membership or ownership: when the project check
    answers true, the user is a member of a team of the project, or a member
    of a team of the organization that owns the project, or the user that
    owns it. *)
Theorem grant_needs_membership db (p : Project) (v : RepoUser)
    (perm_slug : string) :
  Project_user_has_permission db p v perm_slug = Ok true →
  (∃ t : ProjectTeam,
     projectteam_tbl db !! pk t = Some (fields t)
     ∧ project_id (fields t) = pk p
     ∧ member (projectteam_users db) (pk t) v)
  ∨ (∃ (o : Organization) (t : OrganizationTeam),
       get_subclass db (namespace_id (fields p)) = Ok (NsOrganization o)
       ∧ organizationteam_tbl db !! pk t = Some (fields t)
       ∧ organization_id (fields t) = pk o
       ∧ member (organizationteam_users db) (pk t) v)
  ∨ (∃ u : RepoUser,
       get_subclass db (namespace_id (fields p)) = Ok (NsRepoUser u)
       ∧ pk v = pk u).
Proof.
  intros Hok.
  destruct (project_team_grants_dec db p v perm_slug) as [Hg|Hn].
  - left. destruct Hg as (t & Hrow & Hproj & Hm & _). by exists t.
  - right. rewrite (Project_check_delegated _ _ _ _ Hn) in Hok.
    destruct (get_subclass db (namespace_id (fields p))) as [[u|o|n]|e];
      simpl in Hok; [| |done|done].
    + right. exists u. split; [done|]. injection Hok as Hok.
      by apply Z.eqb_eq in Hok.
    + left. injection Hok as Hok.
      apply Organization_user_has_permission_grants in Hok
        as (t & Hrow & Horg & Hm & _).
      by exists o, t.
Qed.

Lemma grant_needs_membership_witness :
  (∃ t : ProjectTeam,
     projectteam_tbl example_db !! pk t = Some (fields t)
     ∧ project_id (fields t) = pk widgets
     ∧ member (projectteam_users example_db) (pk t) alice)
  ∨ (∃ (o : Organization) (t : OrganizationTeam),
       get_subclass example_db (namespace_id (fields widgets))
       = Ok (NsOrganization o)
       ∧ organizationteam_tbl example_db !! pk t = Some (fields t)
       ∧ organization_id (fields t) = pk o
       ∧ member (organizationteam_users example_db) (pk t) alice)
  ∨ (∃ u : RepoUser,
       get_subclass example_db (namespace_id (fields widgets))
       = Ok (NsRepoUser u)
       ∧ pk alice = pk u).
Proof.
  apply (grant_needs_membership example_db widgets alice "deploy").
  reflexivity.
Defined.

Lemma holds_permission_fmap db (f : PermissionRow → PermissionRow) links team
    perm_slug :
  (∀ r, slug (f r) = slug r) →
  holds_permission (set_permission_tbl (f <$> permission_tbl db) db) links
    team perm_slug
  ↔ holds_permission db links team perm_slug.
Proof.
  intros Hf. unfold holds_permission. simpl. split.
  - intros (pid & r' & Hl & Hrow & Hs). rewrite lookup_fmap in Hrow.
    destruct (permission_tbl db !! pid) as [r|] eqn:Hr; [|done].
    simpl in Hrow. injection Hrow as <-. exists pid, r.
    by rewrite <- Hf.
  - intros (pid & r & Hl & Hrow & Hs). exists pid, (f r).
    rewrite lookup_fmap, Hrow. by rewrite Hf.
Qed.

(** X6. Only the slug of a permission counts: rewriting the other columns
    of the permission rows ([name], [description], [applies_to_project])
    changes no answer of the project check. *)
Theorem permission_columns_ignored db (f : PermissionRow → PermissionRow)
    (p : Project) (v : RepoUser) (perm_slug : string) :
  (∀ r, slug (f r) = slug r) →
  Project_user_has_permission
    (set_permission_tbl (f <$> permission_tbl db) db) p v perm_slug
  = Project_user_has_permission db p v perm_slug.
Proof.
  intros Hf. apply Project_check_ext.
  - unfold project_team_grants.
    by setoid_rewrite (holds_permission_fmap db f _ _ _ Hf).
  - change (get_subclass (set_permission_tbl (f <$> permission_tbl db) db))
      with (get_subclass db).
    destruct (get_subclass db (namespace_id (fields p))) as [[u|o|n]|e];
      simpl; try done.
    f_equal. apply Organization_check_ext. unfold organization_team_grants.
    by setoid_rewrite (holds_permission_fmap db f _ _ _ Hf).
Qed.

Lemma permission_columns_ignored_witness :
  Project_user_has_permission
    (set_permission_tbl (not_for_projects <$> permission_tbl example_db)
       example_db) widgets bob "deploy"
  = Project_user_has_permission example_db widgets bob "deploy".
Proof.
  apply (permission_columns_ignored example_db not_for_projects).
  intros r. reflexivity.
Defined.

(** X7. The status flags of users are never consulted, and of the acting
    user only the primary key is: rewriting the columns of the user rows
    changes no answer of the project check, and two acting users with one
    primary key get the same answer. A superuser gets no bypass and an
    inactive user is not refused. *)
Theorem user_columns_ignored db (f : RepoUserRow → RepoUserRow)
    (p : Project) (v v' : RepoUser) (perm_slug : string) :
  pk v' = pk v →
  Project_user_has_permission
    (set_user_tbls (namespace_tbl db) (f <$> repouser_tbl db) db) p v'
    perm_slug
  = Project_user_has_permission db p v perm_slug.
Proof.
  intros Hpk. apply Project_check_ext.
  - unfold project_team_grants, member. simpl. by rewrite Hpk.
  - unfold get_subclass. simpl. rewrite lookup_fmap.
    destruct (namespace_tbl db !! namespace_id (fields p)) as [ns|];
      [|done].
    destruct (repouser_tbl db !! namespace_id (fields p)) as [u|]; simpl.
    + unfold RepoUser_user_has_permission. simpl. by rewrite Hpk.
    + destruct (bool_decide _); [|done]. simpl. f_equal.
      apply Organization_check_ext.
      unfold organization_team_grants, member. simpl. by rewrite Hpk.
Qed.

Lemma user_columns_ignored_witness :
  Project_user_has_permission
    (set_user_tbls (namespace_tbl example_db)
       (no_flags <$> repouser_tbl example_db) example_db)
    notes alice "deploy"
  = Project_user_has_permission example_db notes alice "deploy".
Proof.
  apply (user_columns_ignored example_db no_flags notes alice alice).
  reflexivity.
Defined.

(** ** More on creating users *)

Section CreatedUsers.

Variable normalize_email : string → string.
Variable make_password : string → string.
Variable last_login_null : bool.

(** What [_create_user] answers, branch by branch. *)
Lemma _create_user_cases db username email password staff superuser
    extra_fields now :
  _create_user normalize_email make_password last_login_null db username
    email password staff superuser extra_fields now
  = if bool_decide (username = "") then Raise ValueError
    else if bool_decide (repeats_keyword extra_fields) then Raise TypeError
    else if bool_decide (is_Some (extra_fields !! "namespace_ptr"))
    then Raise ValueError
    else if bool_decide (unknown_keyword extra_fields) then Raise TypeError
    else if bool_decide (name_taken db (save_key db extra_fields) username)
    then Raise IntegrityError
    else if negb last_login_null
            && bool_decide (extra_fields !! "last_login" = Some None)
    then Raise IntegrityError
    else
      Ok (MkInstance (save_key db extra_fields)
            ({| name := username |},
             new_user_row normalize_email make_password email password
               staff now),
          set_user_tbls
            (<[save_key db extra_fields := {| name := username |}]>
               (namespace_tbl db))
            (<[save_key db extra_fields :=
                 new_user_row normalize_email make_password email password
                   staff now]> (repouser_tbl db)) db).
Proof. reflexivity. Qed.

Lemma _create_user_inv db username email password staff superuser
    extra_fields now (user : RepoUser) db' :
  _create_user normalize_email make_password last_login_null db username
    email password staff superuser extra_fields now = Ok (user, db') →
  ¬ name_taken db (pk user) username
  ∧ pk user = save_key db extra_fields
  ∧ user = MkInstance (pk user)
             ({| name := username |},
              new_user_row normalize_email make_password email password
                staff now)
  ∧ db' = set_user_tbls (<[pk user := (fields user).1]> (namespace_tbl db))
            (<[pk user := (fields user).2]> (repouser_tbl db)) db.
Proof.
  rewrite _create_user_cases.
  repeat match goal with
         | |- context [if bool_decide ?P then Raise _ else _] =>
             destruct (decide P);
             [by rewrite bool_decide_eq_true_2
             |rewrite (bool_decide_eq_false_2 P) by done]
         end.
  destruct (negb last_login_null && _); [done|].
  by intros [= <- <-].
Qed.


(** X9. [_create_user] keeps namespace names unique: when no two namespace
    rows share a name before, none do after, and the new row carries the
    user name that was asked for. *)
Theorem created_user_keeps_names_unique db username email password staff
    superuser extra_fields now (user : RepoUser) db' :
  names_unique db →
  _create_user normalize_email make_password last_login_null db username
    email password staff superuser extra_fields now = Ok (user, db') →
  names_unique db'
  ∧ namespace_tbl db' !! pk user = Some {| name := username |}.
Proof.
  intros Huniq Hc.
  apply _create_user_inv in Hc as (Hfree & _ & Huser & ->).
  assert ((fields user).1 = {| name := username |}) as Hns
    by (by rewrite Huser).
  assert (∀ j row, namespace_tbl db !! j = Some row → j ≠ pk user →
                   name row ≠ username) as Hfree'.
  { intros j row Hrow Hj Hname. apply Hfree. by exists j, row. }
  split; [|simpl; by rewrite lookup_insert_eq, Hns].
  intros i j ri rj. simpl. rewrite Hns.
  destruct (decide (i = pk user)) as [->|Hi],
           (decide (j = pk user)) as [->|Hj];
    rewrite ?lookup_insert_eq, ?lookup_insert_ne by done.
  - done.
  - intros [= <-] Hrj Hname. exfalso. by apply (Hfree' j rj).
  - intros Hri [= <-] Hname. exfalso. by apply (Hfree' i ri).
  - apply Huniq.
Qed.


(** X11. Creating a user changes no permission decision: every answer of
    the organization check, and every answer of the project check on a
    project whose namespace is not the new user, is what it was. *)
Theorem created_user_changes_no_decision db username email password staff
    superuser extra_fields now (user : RepoUser) db' :
  _create_user normalize_email make_password last_login_null db username
    email password staff superuser extra_fields now = Ok (user, db') →
  (∀ (o : Organization) (v : RepoUser) perm_slug project,
     Organization_user_has_permission db' o v perm_slug project
     = Organization_user_has_permission db o v perm_slug project)
  ∧ (∀ (p : Project) (v : RepoUser) perm_slug,
       namespace_id (fields p) ≠ pk user →
       Project_user_has_permission db' p v perm_slug
       = Project_user_has_permission db p v perm_slug).
Proof.
  intros Hc.
  apply _create_user_inv in Hc as (_ & _ & _ & ->).
  split; [done|]. intros p v perm_slug Hns. apply Project_check_ext; [done|].
  unfold get_subclass. simpl. rewrite !lookup_insert_ne by done.
  by destruct (get_subclass db (namespace_id (fields p))) as [[?|?|?]|?].
Qed.

End CreatedUsers.


Lemma names_unique_example_db : names_unique example_db.
Proof.
  intros i j ri rj Hi Hj. unfold example_db in Hi, Hj. simpl in Hi, Hj.
  repeat (apply lookup_insert_Some in Hi as [[<- <-]|[_ Hi]]);
    try apply lookup_singleton_Some in Hi as [<- <-];
    repeat (apply lookup_insert_Some in Hj as [[<- <-]|[_ Hj]]);
    try apply lookup_singleton_Some in Hj as [<- <-];
    done.
Qed.

Lemma created_user_keeps_names_unique_witness :
  names_unique carol_db
  ∧ namespace_tbl carol_db !! pk carol = Some {| name := "carol" |}.
Proof.
  apply (created_user_keeps_names_unique id id false example_db "carol"
           "carol@example.org" "secret" false false ∅ 5 carol carol_db).
  - apply names_unique_example_db.
  - vm_compute. reflexivity.
Defined.


Lemma created_user_changes_no_decision_witness :
  Project_user_has_permission carol_db widgets carol "deploy"
  = Project_user_has_permission example_db widgets carol "deploy".
Proof.
  refine (proj2 (created_user_changes_no_decision id id false example_db
                   "carol" "carol@example.org" "secret" false false ∅ 5
                   carol carol_db _) widgets carol "deploy" _).
  - vm_compute. reflexivity.
  - discriminate.
Defined.

(** ** More on owner-team provisioning *)

(** The database the project receiver leaves for a project of a user. *)
Lemma project_owner_team_created db (inst : Project) (u : RepoUser) :
  get_subclass db (namespace_id (fields inst)) = Ok (NsRepoUser u) →
  create_project_owner_team (Some inst) true db
  = Ok (set_projectteam_users
          (m2m_assign (projectteam_users db)
             (fresh (dom (projectteam_tbl db))) [pk u])
          (set_projectteam_tbl
             (<[fresh (dom (projectteam_tbl db)) := project_owners_row inst]>
                (projectteam_tbl db)) db)).
Proof.
  intros Hns. unfold create_project_owner_team. rewrite Hns. simpl. f_equal.
  apply Database_eq; try done. unfold save. simpl. apply insert_insert_eq.
Qed.

(** X12. After provisioning a project of a user, a team of the project
    grants that user every slug, so the project check answers true for the
    owner whatever namespace the project instance then points at. *)
Theorem provisioned_owner_is_granted db (inst : Project) (u : RepoUser) :
  get_subclass db (namespace_id (fields inst)) = Ok (NsRepoUser u) →
  ∃ db',
    create_project_owner_team (Some inst) true db = Ok db'
    ∧ ∀ (p : Project) (v : RepoUser) perm_slug,
        pk p = pk inst → pk v = pk u →
        Project_user_has_permission db' p v perm_slug = Ok true.
Proof.
  intros Hns. eexists. split; [by apply project_owner_team_created|].
  intros p v perm_slug Hp Hv. apply Project_check_granted.
  exists (MkInstance (fresh (dom (projectteam_tbl db)))
            (project_owners_row inst)).
  simpl. split; [apply lookup_insert_eq|]. split; [done|]. split; [|by left].
  unfold member. simpl. apply elem_of_m2m_assign. right. split; [done|].
  rewrite Hv. apply list_elem_of_singleton. done.
Qed.

Lemma provisioned_owner_is_granted_witness :
  ∃ db',
    create_project_owner_team (Some notes) true example_db = Ok db'
    ∧ ∀ (p : Project) (v : RepoUser) perm_slug,
        pk p = pk notes → pk v = pk alice →
        Project_user_has_permission db' p v perm_slug = Ok true.
Proof.
  apply (provisioned_owner_is_granted example_db notes alice). reflexivity.
Defined.

(** X13. Provisioning a project of a user grants nothing else: the project
    check answers as before for every other user, and for the owner on every
    other project. *)
Theorem provisioning_grants_nothing_else db (inst : Project) (u : RepoUser) :
  get_subclass db (namespace_id (fields inst)) = Ok (NsRepoUser u) →
  ∃ db',
    create_project_owner_team (Some inst) true db = Ok db'
    ∧ ∀ (p : Project) (v : RepoUser) perm_slug,
        pk p ≠ pk inst ∨ pk v ≠ pk u →
        Project_user_has_permission db' p v perm_slug
        = Project_user_has_permission db p v perm_slug.
Proof.
  intros Hns. eexists. split; [by apply project_owner_team_created|].
  intros p v perm_slug Hother. apply Project_check_ext; [|done].
  set (tid := fresh (dom (projectteam_tbl db))).
  assert (projectteam_tbl db !! tid = None) as Hfresh
    by apply not_elem_of_dom, is_fresh.
  unfold project_team_grants, member. simpl. split.
  - intros (t & Hrow & Hproj & Hm & Hperm).
    apply elem_of_m2m_assign in Hm as [[Hne Hm]|[Heq Hm]].
    + exists t. by rewrite lookup_insert_ne in Hrow.
    + exfalso. fold tid in Heq. rewrite Heq, lookup_insert_eq in Hrow.
      injection Hrow as Hrow. rewrite <- Hrow in Hproj. simpl in Hproj.
      apply list_elem_of_singleton in Hm.
      destruct Hother as [Hp|Hv]; [by apply Hp | by apply Hv].
  - intros (t & Hrow & Hproj & Hm & Hperm). exists t.
    assert (pk t ≠ tid) as Hne by (intros Heq; by rewrite Heq, Hfresh in Hrow).
    rewrite lookup_insert_ne by done. split; [done|]. split; [done|].
    split; [|done]. apply elem_of_m2m_assign. by left.
Qed.

Lemma provisioning_grants_nothing_else_witness :
  ∃ db',
    create_project_owner_team (Some notes) true example_db = Ok db'
    ∧ ∀ (p : Project) (v : RepoUser) perm_slug,
        pk p ≠ pk notes ∨ pk v ≠ pk alice →
        Project_user_has_permission db' p v perm_slug
        = Project_user_has_permission example_db p v perm_slug.
Proof.
  apply (provisioning_grants_nothing_else example_db notes alice).
  reflexivity.
Defined.

(** X14. The project receiver does not look for an earlier owner team: run
    twice for the same project, it leaves two distinct "Owners" teams of the
    project, each with the owner as a member. *)
Theorem provisioning_twice_duplicates db (inst : Project) (u : RepoUser) :
  get_subclass db (namespace_id (fields inst)) = Ok (NsRepoUser u) →
  ∃ db1 db2 t1 t2,
    create_project_owner_team (Some inst) true db = Ok db1
    ∧ create_project_owner_team (Some inst) true db1 = Ok db2
    ∧ t1 ≠ t2
    ∧ projectteam_tbl db2 !! t1 = Some (project_owners_row inst)
    ∧ projectteam_tbl db2 !! t2 = Some (project_owners_row inst)
    ∧ member (projectteam_users db2) t1 u
    ∧ member (projectteam_users db2) t2 u.
Proof.
  intros Hns.
  set (t1 := fresh (dom (projectteam_tbl db))).
  set (tbl1 := <[t1 := project_owners_row inst]> (projectteam_tbl db)).
  set (t2 := fresh (dom tbl1)).
  assert (t1 ≠ t2) as Hne.
  { intros Heq. apply (is_fresh (dom tbl1)). fold t2. rewrite <- Heq.
    unfold tbl1. rewrite dom_insert_L. set_solver. }
  eexists _, _, t1, t2. split; [by apply project_owner_team_created|].
  split; [by apply project_owner_team_created|].
  split; [done|]. simpl. fold t1 tbl1 t2.
  split.
  { rewrite lookup_insert_ne by done. unfold tbl1.
    by rewrite lookup_insert_eq. }
  split; [by rewrite lookup_insert_eq|].
  unfold member. split.
  - apply elem_of_m2m_assign. left. split; [done|].
    apply elem_of_m2m_assign. right. split; [done|].
    by apply list_elem_of_singleton.
  - apply elem_of_m2m_assign. right. split; [done|].
    by apply list_elem_of_singleton.
Qed.

Lemma provisioning_twice_duplicates_witness :
  ∃ db1 db2 t1 t2,
    create_project_owner_team (Some notes) true example_db = Ok db1
    ∧ create_project_owner_team (Some notes) true db1 = Ok db2
    ∧ t1 ≠ t2
    ∧ projectteam_tbl db2 !! t1 = Some (project_owners_row notes)
    ∧ projectteam_tbl db2 !! t2 = Some (project_owners_row notes)
    ∧ member (projectteam_users db2) t1 alice
    ∧ member (projectteam_users db2) t2 alice.
Proof.
  apply (provisioning_twice_duplicates example_db notes alice). reflexivity.
Defined.

(** X15. The owner team of a new organization has no member, so creating
    it grants nothing: on a database whose user links all start at existing
    teams, every answer of the organization check and of the project check
    is what it was. *)
Theorem organization_provisioning_grants_nothing db (org : Organization) :
  links_start_in (organizationteam_tbl db) (organizationteam_users db) →
  (∀ (o : Organization) (v : RepoUser) perm_slug project,
     Organization_user_has_permission
       (create_organization_owner_team (Some org) true db) o v perm_slug
       project
     = Organization_user_has_permission db o v perm_slug project)
  ∧ (∀ (p : Project) (v : RepoUser) perm_slug,
       Project_user_has_permission
         (create_organization_owner_team (Some org) true db) p v perm_slug
       = Project_user_has_permission db p v perm_slug).
Proof.
  intros Hlinks.
  set (tid := fresh (dom (organizationteam_tbl db))).
  assert (tid ∉ dom (organizationteam_tbl db)) as Hfresh by apply is_fresh.
  assert (∀ (o : Organization) (v : RepoUser) perm_slug project,
    Organization_user_has_permission
      (create_organization_owner_team (Some org) true db) o v perm_slug
      project
    = Organization_user_has_permission db o v perm_slug project) as Horg.
  { intros o v perm_slug project. apply Organization_check_ext.
    unfold organization_team_grants, member. simpl. fold tid. split.
    - intros (t & Hrow & Hrest). exists t. split; [|done].
      destruct (decide (pk t = tid)) as [Heq|Hne];
        [|by rewrite lookup_insert_ne in Hrow].
      exfalso. apply Hfresh. destruct Hrest as (_ & Hm & _).
      rewrite <- Heq. apply (Hlinks _ Hm).
    - intros (t & Hrow & Hrest). exists t. split; [|done].
      rewrite lookup_insert_ne; [done|]. intros Heq. apply Hfresh.
      rewrite Heq. apply elem_of_dom. by eexists. }
  split; [done|]. intros p v perm_slug. apply Project_check_ext; [done|].
  change (get_subclass (create_organization_owner_team (Some org) true db))
    with (get_subclass db).
  destruct (get_subclass db (namespace_id (fields p))) as [[?|o|?]|?];
    simpl; try done.
  f_equal. apply Horg.
Qed.

Lemma organization_provisioning_grants_nothing_witness :
  Organization_user_has_permission
    (create_organization_owner_team (Some acme) true example_db) acme bob
    "launch" (Some widgets)
  = Organization_user_has_permission example_db acme bob "launch"
      (Some widgets).
Proof.
  apply (proj1 (organization_provisioning_grants_nothing example_db acme
                  ltac:(unfold links_start_in; by_evaluation))).
Defined.

(** ** More on the consistency of organization teams *)

(** When the instance is the stored row, saving it changes no row. *)
Lemma make_consistent_keeps_rows db (self : OrganizationTeam) :
  organizationteam_tbl db !! pk self = Some (fields self) →
  organizationteam_tbl (OrganizationTeam_make_consistent self db)
  = organizationteam_tbl db.
Proof.
  intros Hrow. unfold OrganizationTeam_make_consistent, save. simpl.
  by apply insert_id.
Qed.

(** X16. [check_consistent] of an organization team answers true exactly
    when every linked project that has a row has the team's organization as
    its namespace; a link to a project without a row is not seen. *)
Theorem check_consistent_iff db (self : OrganizationTeam) :
  check_consistent db self = true
  ↔ ∀ pid row,
      (pk self, pid) ∈ organizationteam_projects db →
      project_tbl db !! pid = Some row →
      namespace_id row = organization_id (fields self).
Proof. apply OrganizationTeam_check_consistent_spec. Qed.

(** X17. [make_consistent] only removes links of its own team: a link is
    there afterwards exactly when it was there before and, if it is a link
    of this team, its project has a row whose namespace is the team's
    organization. Members, permissions and projects are untouched, the rows
    of other teams too, and the team's own row is the instance that was
    saved. *)
Theorem make_consistent_removes_only db (self : OrganizationTeam) :
  (∀ o x,
     (o, x) ∈ organizationteam_projects (make_consistent self db)
     ↔ (o, x) ∈ organizationteam_projects db
       ∧ (o = pk self →
          ∃ row, project_tbl db !! x = Some row
                 ∧ namespace_id row = organization_id (fields self)))
  ∧ organizationteam_users (make_consistent self db)
    = organizationteam_users db
  ∧ organizationteam_permissions (make_consistent self db)
    = organizationteam_permissions db
  ∧ project_tbl (make_consistent self db) = project_tbl db
  ∧ organizationteam_tbl (make_consistent self db) !! pk self
    = Some (fields self)
  ∧ (∀ t, t ≠ pk self →
       organizationteam_tbl (make_consistent self db) !! t
       = organizationteam_tbl db !! t).
Proof.
  split; [intros o x; apply elem_of_projects_made_consistent|].
  repeat split; simpl; unfold OrganizationTeam_make_consistent, save; simpl.
  - apply lookup_insert_eq.
  - intros t Ht. by apply lookup_insert_ne.
Qed.

(** X18. On a team that is consistent, is stored as the instance has it
    and has no link to a project without a row, [make_consistent] changes
    nothing at all. *)
Theorem make_consistent_fixes_consistent db (self : OrganizationTeam) :
  check_consistent db self = true →
  (∀ pid, (pk self, pid) ∈ organizationteam_projects db →
          is_Some (project_tbl db !! pid)) →
  organizationteam_tbl db !! pk self = Some (fields self) →
  make_consistent self db = db.
Proof.
  intros Hc Hrows Hself. simpl in *.
  apply Database_eq; try done.
  - by apply make_consistent_keeps_rows.
  - apply set_eq. intros [o x].
    rewrite elem_of_projects_made_consistent. split; [by intros [? _]|].
    intros Hl. split; [done|]. intros ->.
    destruct (Hrows x Hl) as [row Hrow]. exists row. split; [done|].
    by apply (proj1 (OrganizationTeam_check_consistent_spec db self) Hc x).
Qed.

Lemma make_consistent_fixes_consistent_witness :
  make_consistent acme_mixed (make_consistent acme_mixed example_db)
  = make_consistent acme_mixed example_db.
Proof.
  apply (make_consistent_fixes_consistent
           (make_consistent acme_mixed example_db) acme_mixed).
  - vm_compute. reflexivity.
  - intros pid Hl. apply elem_of_projects_made_consistent in Hl as [_ Hl].
    destruct (Hl eq_refl) as (row & Hrow & _). by exists row.
  - vm_compute. reflexivity.
Defined.

(** The organization check after [make_consistent], on a stored team. *)
Lemma organization_team_grants_made_consistent db (self : OrganizationTeam)
    (o : Organization) (v : RepoUser) perm_slug (p : Project) :
  organizationteam_tbl db !! pk self = Some (fields self) →
  organization_team_grants project_set_matches
    (OrganizationTeam_make_consistent self db) o v perm_slug (Some p)
  ↔ ∃ t : OrganizationTeam,
      organizationteam_tbl db !! pk t = Some (fields t)
      ∧ organization_id (fields t) = pk o
      ∧ member (organizationteam_users db) (pk t) v
      ∧ (is_all_projects (fields t) = true
         ∨ (pk t, pk p)
             ∈ organizationteam_projects
                 (OrganizationTeam_make_consistent self db))
      ∧ (ot_is_owner_team (fields t) = true
         ∨ holds_permission db (organizationteam_permissions db) (pk t)
             perm_slug).
Proof.
  intros Hself. unfold organization_team_grants.
  rewrite (make_consistent_keeps_rows db self Hself). done.
Qed.

(** X19. Repair never adds a grant on a project: on a stored team, when
    the organization check answers true for a given project after
    [make_consistent], it answered true before. *)
Theorem make_consistent_never_grants db (self : OrganizationTeam)
    (o : Organization) (v : RepoUser) (perm_slug : string) (p : Project) :
  organizationteam_tbl db !! pk self = Some (fields self) →
  Organization_user_has_permission (make_consistent self db) o v perm_slug
    (Some p) = true →
  Organization_user_has_permission db o v perm_slug (Some p) = true.
Proof.
  intros Hself. simpl. rewrite !Organization_user_has_permission_grants.
  rewrite (organization_team_grants_made_consistent _ _ _ _ _ _ Hself).
  intros (t & Hrow & Horg & Hm & Hscope & Hperm). exists t.
  repeat (split; [done|]). split; [|done].
  destruct Hscope as [Hall|Hl]; [by left|right]. simpl.
  by apply elem_of_projects_made_consistent in Hl as [Hl _].
Qed.

Lemma make_consistent_never_grants_witness :
  Organization_user_has_permission example_db acme alice "deploy"
    (Some widgets) = true.
Proof.
  apply (make_consistent_never_grants example_db acme_mixed acme alice
           "deploy" widgets); reflexivity.
Defined.

(** X20. Repair keeps every decision on the organization's own projects: on
    a stored team, for a project whose row has the team's organization as
    its namespace, the organization check answers after [make_consistent]
    what it answered before. *)
Theorem make_consistent_keeps_own_projects db (self : OrganizationTeam)
    (o : Organization) (v : RepoUser) (perm_slug : string) (p : Project)
    (row : ProjectRow) :
  organizationteam_tbl db !! pk self = Some (fields self) →
  project_tbl db !! pk p = Some row →
  namespace_id row = organization_id (fields self) →
  Organization_user_has_permission (make_consistent self db) o v perm_slug
    (Some p)
  = Organization_user_has_permission db o v perm_slug (Some p).
Proof.
  intros Hself Hrow Hns. simpl. apply Organization_check_ext.
  rewrite (organization_team_grants_made_consistent _ _ _ _ _ _ Hself).
  unfold organization_team_grants. simpl.
  split; intros (t & Ht & Horg & Hm & Hscope & Hperm); exists t;
    repeat (split; [done|]); (split; [|done]);
    (destruct Hscope as [Hall|Hl]; [by left|right]).
  - by apply elem_of_projects_made_consistent in Hl as [Hl _].
  - apply elem_of_projects_made_consistent. split; [done|].
    intros _. by exists row.
Qed.

Lemma make_consistent_keeps_own_projects_witness :
  Organization_user_has_permission (make_consistent acme_mixed example_db)
    acme bob "deploy" (Some widgets)
  = Organization_user_has_permission example_db acme bob "deploy"
      (Some widgets).
Proof.
  apply (make_consistent_keeps_own_projects example_db acme_mixed acme bob
           "deploy" widgets (fields widgets)); reflexivity.
Defined.
